(** * AI Paper Feed (app.js): feed acquisition, normalisation and bookmarks

    A shallow embedding of the data pipeline of [app.js]: the string helpers
    ([extractArxivId], [cleanText]), the two parsers ([parseFeed],
    [parseArxivAPIResponse]), the proxy fallback chains ([fetchFeed],
    [fetchFromArxivAPI]), the aggregation cycle ([fetchAllFeeds]), the filter
    pipeline ([applyFilters]) and the bookmark store ([loadBookmarks],
    [saveBookmarks], [toggleBookmark], [removeBookmark]).

    Conventions.
    - A JavaScript string is its sequence of UTF-16 code units ([list N]).
    - Everything the browser provides (the network, the XML parser, the clock,
      [localStorage], [JSON], [toLowerCase]) is a field of the record [Host];
      the program is a function of it.
    - A JavaScript computation that may throw returns a [Completion]; an
      [async] function additionally logs the URLs it requests ([Async]).
    - DOM rendering ([updateUI], [renderPapers], ...) only reads the state and
      is left out. *)

From Stdlib Require Import String Ascii NArith List DecimalString.
From stdpp Require Import base option list gmap sets.

Local Open Scope N_scope.

(** ** JavaScript strings *)

Definition jsString : Type := list N.

(** The code units of an ASCII literal. *)
Definition lit (s : string) : jsString :=
  List.map N_of_ascii (list_ascii_of_string s).

(** [String(n)] for a non-negative integer. *)
Definition String_of_N (n : N) : jsString :=
  lit (NilZero.string_of_uint (N.to_uint n)).

(** Truthiness of a string: [''] is the only falsy one. *)
Definition truthy (s : jsString) : bool :=
  match s with [] => false | _ :: _ => true end.

(** [a || b] on strings. *)
Definition orElse (a b : jsString) : jsString :=
  if truthy a then a else b.

(** The class [\s] of a regular expression, which is also what [trim]
    removes: WhiteSpace and LineTerminator code points. *)
Definition isSpace (c : N) : bool :=
  ((9 <=? c) && (c <=? 13)) || (c =? 32) || (c =? 160) || (c =? 5760)
  || ((8192 <=? c) && (c <=? 8202)) || (c =? 8232) || (c =? 8233)
  || (c =? 8239) || (c =? 8287) || (c =? 12288) || (c =? 65279).

Definition ch (a : ascii) : N := N_of_ascii a.

(** The longest prefix of code units satisfying [f], and what follows it:
    how a greedy character class consumes its input. *)
Fixpoint takeWhile (f : N -> bool) (s : jsString) : jsString :=
  match s with
  | c :: r => if f c then c :: takeWhile f r else []
  | [] => []
  end.

Fixpoint dropWhile (f : N -> bool) (s : jsString) : jsString :=
  match s with
  | c :: r => if f c then dropWhile f r else s
  | [] => []
  end.

(** [s.startsWith(p)] *)
Fixpoint startsWith (p s : jsString) : bool :=
  match p, s with
  | [], _ => true
  | _ :: _, [] => false
  | a :: p', b :: s' => (a =? b) && startsWith p' s'
  end.

(** [s.includes(p)] *)
Fixpoint includes (s p : jsString) : bool :=
  startsWith p s ||
  match s with
  | [] => false
  | _ :: s' => includes s' p
  end.

(** [s.replace(/pat/g, rep)] for a literal, non-empty [pat]: matches are
    taken left to right and do not overlap.  [skip] counts the code units of
    the current match still to be consumed. *)
Fixpoint replaceAll_from (pat rep : jsString) (skip : nat) (s : jsString)
  : jsString :=
  match s with
  | [] => []
  | c :: r =>
      match skip with
      | S k => replaceAll_from pat rep k r
      | O =>
          if startsWith pat s
          then rep ++ replaceAll_from pat rep (Nat.pred (length pat)) r
          else c :: replaceAll_from pat rep O r
      end
  end.

Definition replaceAll (pat rep s : jsString) : jsString :=
  replaceAll_from pat rep O s.

(** [s.replace(pat, rep)] with a string pattern: only the first occurrence
    is replaced. *)
Fixpoint replaceFirst (pat rep s : jsString) : jsString :=
  if startsWith pat s then rep ++ drop (length pat) s
  else match s with
       | [] => []
       | c :: r => c :: replaceFirst pat rep r
       end.

(** [s.replace(/<[^>]*>/g, '')]: a ['<'] opens a match only when a ['>']
    follows somewhere; the match then runs to the first such ['>'].
    [inTag] is true while the scan is inside a match. *)
Fixpoint stripTags_from (inTag : bool) (s : jsString) : jsString :=
  match s with
  | [] => []
  | c :: r =>
      if inTag then stripTags_from (negb (c =? ch ">")) r
      else if (c =? ch "<") && existsb (N.eqb (ch ">")) r
           then stripTags_from true r
           else c :: stripTags_from false r
  end.

Definition stripTags (s : jsString) : jsString := stripTags_from false s.

(** [s.replace(/\s+/g, ' ')]: every maximal run of white space becomes one
    space.  [inRun] is true when the previous code unit was white space. *)
Fixpoint collapseSpaces_from (inRun : bool) (s : jsString) : jsString :=
  match s with
  | [] => []
  | c :: r =>
      if isSpace c
      then (if inRun then [] else [ch " "]) ++ collapseSpaces_from true r
      else c :: collapseSpaces_from false r
  end.

Definition collapseSpaces (s : jsString) : jsString :=
  collapseSpaces_from false s.

Definition trimStart (s : jsString) : jsString := dropWhile isSpace s.

Definition trimEnd (s : jsString) : jsString :=
  rev (dropWhile isSpace (rev s)).

(** [s.trim()] *)
Definition trim (s : jsString) : jsString := trimEnd (trimStart s).

(** [cleanText]: remove tags, decode three entities, tidy white space. *)
Definition cleanText (text : jsString) : jsString :=
  trim
    (collapseSpaces
       (replaceAll (lit "&amp;") (lit "&")
          (replaceAll (lit "&gt;") (lit ">")
             (replaceAll (lit "&lt;") (lit "<")
                (stripTags text))))).

(** [s.match(/abs\/([^\?]+)/)]: the capture group of the leftmost match, or
    [None] when the expression does not match.  A match needs ["abs/"]
    followed by at least one code unit other than ['?']; the group then
    extends to the next ['?'] or to the end. *)
Fixpoint matchAbs (s : jsString) : option jsString :=
  let here :=
    if startsWith (lit "abs/") s
    then match takeWhile (fun c => negb (c =? ch "?")) (drop 4 s) with
         | [] => None
         | g => Some g
         end
    else None in
  match here with
  | Some g => Some g
  | None => match s with
            | [] => None
            | _ :: r => matchAbs r
            end
  end.

(** [extractArxivId(link)] *)
Definition extractArxivId (link : jsString) : jsString :=
  match matchAbs link with
  | Some g => g
  | None => []
  end.

(** [s.split('/').pop()]: what follows the last ['/'], or all of [s]. *)
Definition lastSegment (s : jsString) : jsString :=
  rev (takeWhile (fun c => negb (c =? ch "/")) (rev s)).

(** [title.replace(/^\([^)]+\)\s*/, '')]: drop a leading parenthesised tag
    (with at least one code unit between the parentheses) and the white
    space after it. *)
Definition stripCategoryPrefix (title : jsString) : jsString :=
  match title with
  | c :: r =>
      if c =? ch "(" then
        match takeWhile (fun c => negb (c =? ch ")")) r,
              dropWhile (fun c => negb (c =? ch ")")) r with
        | _ :: _, _ :: rest => dropWhile isSpace rest
        | _, _ => title
        end
      else title
  | [] => title
  end.

(** [parts.join(sep)] *)
Fixpoint join (sep : jsString) (parts : list jsString) : jsString :=
  match parts with
  | [] => []
  | [p] => p
  | p :: ps => p ++ sep ++ join sep ps
  end.

(** [String(n).padStart(2, '0')] *)
Definition pad2 (n : N) : jsString :=
  let s := String_of_N n in
  if (length s <? 2)%nat then lit "0" ++ s else s.

(** ** Exceptions and asynchronous functions *)

Inductive JsError : Type :=
  | URIError            (* encodeURIComponent on an unpaired surrogate *)
  | NetworkFailure      (* a rejected fetch or body read *)
  | SyntaxError         (* JSON.parse on malformed text *)
  | StorageError.       (* localStorage refusing a read or a write *)

(** The outcome of evaluating a JavaScript expression or statement list. *)
Inductive Completion (A : Type) : Type :=
  | Normal (a : A)
  | Throw (e : JsError).
Arguments Normal {A} a.
Arguments Throw {A} e.

#[global] Instance Completion_ret : MRet Completion := fun _ a => Normal a.
#[global] Instance Completion_bind : MBind Completion := fun _ _ f m =>
  match m with
  | Normal a => f a
  | Throw e => Throw e
  end.
#[global] Instance Completion_fmap : FMap Completion := fun _ _ f m =>
  match m with
  | Normal a => Normal (f a)
  | Throw e => Throw e
  end.

(** [try { body } catch (e) { handler }] *)
Definition tryCatch {A} (body : Completion A) (handler : JsError -> Completion A)
  : Completion A :=
  match body with
  | Normal a => Normal a
  | Throw e => handler e
  end.

(** An [async] function: the URLs it has requested, oldest first, and how its
    promise settles ([Normal] is fulfilment, [Throw] is rejection). *)
Record Async (A : Type) : Type := mkAsync {
  requests : list jsString;
  settled : Completion A
}.
Arguments mkAsync {A} requests settled.
Arguments requests {A} a.
Arguments settled {A} a.

#[global] Instance Async_ret : MRet Async := fun _ a => mkAsync [] (Normal a).
#[global] Instance Async_bind : MBind Async := fun _ _ f m =>
  match settled m with
  | Normal a => mkAsync (requests m ++ requests (f a)) (settled (f a))
  | Throw e => mkAsync (requests m) (Throw e)
  end.

(** A synchronous computation inside an [async] function. *)
Definition sync {A} (c : Completion A) : Async A := mkAsync [] c.

(** [try { body } catch (error) { handler }] inside an [async] function. *)
Definition tryCatchAsync {A} (body : Async A) (handler : JsError -> Async A)
  : Async A :=
  match settled body with
  | Normal a => body
  | Throw e => mkAsync (requests body ++ requests (handler e))
                       (settled (handler e))
  end.

(** [await Promise.all(tasks)]: every task has been started, so all their
    requests are issued; the result is the list of their values, or a
    rejection when some task rejects.  The network is a function of the URL,
    so the order in which the tasks interleave does not matter; the requests
    are listed task by task, and of several rejections the one of the
    earliest task is reported (the program only logs it). *)
Fixpoint Promise_all {A} (tasks : list (Async A)) : Async (list A) :=
  match tasks with
  | [] => mkAsync [] (Normal [])
  | t :: ts =>
      let rest := Promise_all ts in
      mkAsync (requests t ++ requests rest)
              (match settled t, settled rest with
               | Normal a, Normal l => Normal (a :: l)
               | Throw e, _ => Throw e
               | Normal _, Throw e => Throw e
               end)
  end.

(** ** [encodeURIComponent] (ECMAScript, Encode with the unreserved set) *)

Definition isUnreserved (c : N) : bool :=
  ((65 <=? c) && (c <=? 90)) || ((97 <=? c) && (c <=? 122))
  || ((48 <=? c) && (c <=? 57))
  || existsb (N.eqb c) (lit "-_.!~*'()").

Definition isLeadSurrogate (c : N) : bool := (55296 <=? c) && (c <=? 56319).
Definition isTrailSurrogate (c : N) : bool := (56320 <=? c) && (c <=? 57343).

Definition hexDigit (d : N) : N := if d <? 10 then 48 + d else 55 + d.

Definition percent (octet : N) : jsString :=
  [ch "%"; hexDigit (octet / 16); hexDigit (octet mod 16)].

Definition utf8 (cp : N) : list N :=
  if cp <? 128 then [cp]
  else if cp <? 2048 then [192 + cp / 64; 128 + cp mod 64]
  else if cp <? 65536 then
    [224 + cp / 4096; 128 + (cp / 64) mod 64; 128 + cp mod 64]
  else
    [240 + cp / 262144; 128 + (cp / 4096) mod 64; 128 + (cp / 64) mod 64;
     128 + cp mod 64].

Definition percentEncode (cp : N) : jsString := concat (List.map percent (utf8 cp)).

Fixpoint encodeURIComponent (s : jsString) : Completion jsString :=
  match s with
  | [] => Normal []
  | c :: r =>
      if isUnreserved c then cons c <$> encodeURIComponent r
      else if isTrailSurrogate c then Throw URIError
      else if isLeadSurrogate c then
        match r with
        | c2 :: r2 =>
            if isTrailSurrogate c2
            then app (percentEncode ((c - 55296) * 1024 + (c2 - 56320) + 65536))
                   <$> encodeURIComponent r2
            else Throw URIError
        | [] => Throw URIError
        end
      else app (percentEncode c) <$> encodeURIComponent r
  end.

(** ** Data model *)

Module Paper.
(** The object literal pushed by the two parsers. *)
Record t : Type := mk {
  id : jsString;
  title : jsString;
  link : jsString;
  abstract : jsString;
  authors : jsString;
  category : jsString;
  fetchedAt : jsString
}.
End Paper.

Module Bookmark.
(** The object literal pushed by [toggleBookmark]. *)
Record t : Type := mk {
  id : jsString;
  title : jsString;
  link : jsString;
  category : jsString;
  addedAt : jsString
}.
End Bookmark.

Record Feed : Type := mkFeed {
  feed_id : jsString;
  feed_name : jsString;
  feed_url : jsString
}.

(** The constant [CONFIG] ([debounceMs] only concerns the search box). *)
Module CONFIG.
Definition feeds : list Feed :=
  [ mkFeed (lit "cs.LG") (lit "Machine Learning") (lit "https://export.arxiv.org/rss/cs.LG");
    mkFeed (lit "cs.CL") (lit "NLP / LLMs") (lit "https://export.arxiv.org/rss/cs.CL");
    mkFeed (lit "cs.AI") (lit "General AI") (lit "https://export.arxiv.org/rss/cs.AI");
    mkFeed (lit "cs.CV") (lit "Computer Vision") (lit "https://export.arxiv.org/rss/cs.CV");
    mkFeed (lit "cs.RO") (lit "Robotics") (lit "https://export.arxiv.org/rss/cs.RO");
    mkFeed (lit "cs.IR") (lit "Information Retrieval") (lit "https://export.arxiv.org/rss/cs.IR");
    mkFeed (lit "stat.ML") (lit "Statistics ML") (lit "https://export.arxiv.org/rss/stat.ML") ].

Definition corsProxies : list jsString :=
  [ lit "http://localhost:3001/?url=";
    lit "https://api.codetabs.com/v1/proxy?quest=";
    lit "https://corsproxy.io/?";
    lit "https://api.allorigins.win/raw?url=" ].

Definition storageKey : jsString := lit "ai-paper-feed-bookmarks".
End CONFIG.

(** The own keys of the constant [QUICK_FILTERS]; [None] is the [null] stored
    under ['all']. *)
Definition QUICK_FILTERS : list (jsString * option (list jsString)) :=
  [ (lit "all", None);
    (lit "llm", Some (List.map lit ["llm"; "language model"; "gpt"; "bert";
                        "transformer"; "chatgpt"; "llama"; "gemini"]%string));
    (lit "transformer", Some (List.map lit ["transformer"; "attention";
                        "self-attention"; "multi-head"]%string));
    (lit "rag", Some (List.map lit ["retrieval"; "rag"; "retrieval-augmented";
                        "dense retrieval"; "knowledge base"]%string));
    (lit "diffusion", Some (List.map lit ["diffusion"; "stable diffusion"; "ddpm";
                        "score-based"; "denoising"]%string));
    (lit "reinforcement", Some (List.map lit ["reinforcement learning"; "rl";
                        "policy gradient"; "q-learning"; "ppo"; "rlhf"]%string)) ].

(** The variable [state].  [activeCategories] is a JavaScript [Set], which
    iterates in insertion order: it is kept as the list of its members in
    that order.  [error] is [None] for [null]. *)
Record State : Type := mkState {
  papers : list Paper.t;
  filteredPapers : list Paper.t;
  bookmarks : list Bookmark.t;
  activeCategories : list jsString;
  searchQuery : jsString;
  quickFilter : jsString;
  dateRange : jsString;
  isLoading : bool;
  error : option jsString
}.

Definition set_papers (v : list Paper.t) (st : State) : State :=
  mkState v (filteredPapers st) (bookmarks st) (activeCategories st)
          (searchQuery st) (quickFilter st) (dateRange st) (isLoading st) (error st).
Definition set_filteredPapers (v : list Paper.t) (st : State) : State :=
  mkState (papers st) v (bookmarks st) (activeCategories st)
          (searchQuery st) (quickFilter st) (dateRange st) (isLoading st) (error st).
Definition set_bookmarks (v : list Bookmark.t) (st : State) : State :=
  mkState (papers st) (filteredPapers st) v (activeCategories st)
          (searchQuery st) (quickFilter st) (dateRange st) (isLoading st) (error st).
Definition set_isLoading (v : bool) (st : State) : State :=
  mkState (papers st) (filteredPapers st) (bookmarks st) (activeCategories st)
          (searchQuery st) (quickFilter st) (dateRange st) v (error st).
Definition set_error (v : option jsString) (st : State) : State :=
  mkState (papers st) (filteredPapers st) (bookmarks st) (activeCategories st)
          (searchQuery st) (quickFilter st) (dateRange st) (isLoading st) v.

(** The initial value of [state]. *)
Definition initialState : State :=
  mkState [] [] []
          (List.map lit ["cs.LG"; "cs.CL"; "cs.AI"; "cs.CV"; "cs.RO"; "cs.IR"; "stat.ML"]%string)
          [] (lit "all") (lit "today") true None.

(** The program's memory: [state] and the [localStorage] slot named by
    [CONFIG.storageKey] ([None] when the key is absent). *)
Record World : Type := mkWorld {
  state : State;
  slot : option jsString
}.

(** ** The browser *)

(** What [await fetch(url)] gives: a rejection, or a response with its [ok]
    flag and what [await response.text()] gives ([None] when reading the body
    rejects). *)
Record Response : Type := mkResponse {
  ok : bool;
  body : option jsString
}.

Inductive FetchOutcome : Type :=
  | Rejected
  | Responded (r : Response).

(** What the parsers read of an [<item>] of a document: the [textContent] of
    the first descendant matched by each query, [None] when there is none. *)
Record RssItem : Type := mkRssItem {
  item_title : option jsString;        (* querySelector('title') *)
  item_link : option jsString;         (* querySelector('link') *)
  item_description : option jsString;  (* querySelector('description') *)
  item_creator : option jsString;      (* querySelector('creator') *)
  item_dcCreator : option jsString     (* getElementsByTagNameNS(dc, 'creator')[0] *)
}.

(** What the parser reads of an [<entry>].  For the two [link] queries the
    outer option is the element, the inner one its [href] attribute. *)
Record AtomEntry : Type := mkAtomEntry {
  entry_title : option jsString;       (* querySelector('title') *)
  entry_id : option jsString;          (* querySelector('id') *)
  entry_summary : option jsString;     (* querySelector('summary') *)
  entry_authorNames : list jsString;   (* querySelectorAll('author name') *)
  entry_pdfLink : option (option jsString);       (* link[title="pdf"] *)
  entry_alternateLink : option (option jsString)  (* link[rel="alternate"] *)
}.

(** A local calendar date as [getFullYear], [getMonth] and [getDate] report
    it. *)
Record LocalDate : Type := mkLocalDate {
  getFullYear : N;
  getMonth : N;
  getDate : N
}.

Record Host : Type := mkHost {
  (** the network, as seen through [fetch] *)
  fetch : jsString -> FetchOutcome;
  (** [DOMParser.parseFromString(text, 'text/xml')] followed by
      [querySelectorAll('item')], resp. [querySelectorAll('entry')]; a
      document that is not well-formed yields an error document, never an
      exception *)
  xmlItems : jsString -> list RssItem;
  xmlEntries : jsString -> list AtomEntry;
  (** [new Date().toISOString()] and [new Date().getDay()] *)
  nowISO : jsString;
  getDay : N;
  (** the local date [daysBack] days before now ([Date.setDate]) *)
  dateDaysAgo : N -> LocalDate;
  (** [String.prototype.toLowerCase] *)
  toLowerCase : jsString -> jsString;
  (** [JSON.parse] ([None]: it throws) and [JSON.stringify] on the bookmark
      array; texts that parse to something else than an array of bookmarks
      are not modelled *)
  JSON_parse : jsString -> option (list Bookmark.t);
  JSON_stringify : list Bookmark.t -> jsString;
  (** whether [localStorage.getItem] and [localStorage.setItem] throw *)
  getItemThrows : bool;
  setItemThrows : bool
}.

(** ** The program *)

Section Program.

Variable h : Host.

(** [x?.textContent || dflt] *)
Definition textOr (x : option jsString) (dflt : jsString) : jsString :=
  match x with
  | Some s => orElse s dflt
  | None => dflt
  end.

(** [x?.getAttribute('href') || dflt] *)
Definition hrefOr (x : option (option jsString)) (dflt : jsString) : jsString :=
  match x with
  | Some (Some s) => orElse s dflt
  | _ => dflt
  end.

(** The body of the [forEach] callback of [parseFeed]: the papers pushed for
    one item (none or one). *)
Definition parseFeed_item (categoryId : jsString) (item : RssItem) (index : N)
  : list Paper.t :=
  let title := cleanText (textOr (item_title item) []) in
  let link := textOr (item_link item) [] in
  let description := textOr (item_description item) [] in
  let creator := textOr (item_creator item) (textOr (item_dcCreator item) []) in
  let abstract := cleanText description in
  let id := extractArxivId link in
  if truthy title && truthy link then
    [ {| Paper.id := orElse id (categoryId ++ lit "-" ++ String_of_N index);
         Paper.title := stripCategoryPrefix title;
         Paper.link := link;
         Paper.abstract := abstract;
         Paper.authors := cleanText creator;
         Paper.category := categoryId;
         Paper.fetchedAt := nowISO h |} ]
  else [].

(** [items.forEach((item, index) => ...)], from position [index] on. *)
Fixpoint parseFeed_forEach (categoryId : jsString) (items : list RssItem)
  (index : N) : list Paper.t :=
  match items with
  | [] => []
  | item :: rest =>
      parseFeed_item categoryId item index
      ++ parseFeed_forEach categoryId rest (index + 1)
  end.

Definition parseFeed (xmlText categoryId : jsString) : list Paper.t :=
  parseFeed_forEach categoryId (xmlItems h xmlText) 0.

(** The constant [link] computed for each entry by [parseArxivAPIResponse]. *)
Definition entryLink (entry : AtomEntry) : jsString :=
  let id := textOr (entry_id entry) [] in
  hrefOr (entry_pdfLink entry) (hrefOr (entry_alternateLink entry) id).

(** The body of the [forEach] callback of [parseArxivAPIResponse]. *)
Definition parseArxivAPIResponse_entry (categoryId : jsString) (entry : AtomEntry)
  : list Paper.t :=
  let title := cleanText (textOr (entry_title entry) []) in
  let id := textOr (entry_id entry) [] in
  let summary := textOr (entry_summary entry) [] in
  let authors := join (lit ", ") (entry_authorNames entry) in
  let link := entryLink entry in
  let arxivId :=
    match matchAbs id with
    | Some g => orElse g (lastSegment id)
    | None => lastSegment id
    end in
  if truthy title && truthy arxivId then
    [ {| Paper.id := arxivId;
         Paper.title := title;
         Paper.link := replaceFirst (lit "http://") (lit "https://") id;
         Paper.abstract := cleanText summary;
         Paper.authors := authors;
         Paper.category := categoryId;
         Paper.fetchedAt := nowISO h |} ]
  else [].

Definition parseArxivAPIResponse (xmlText categoryId : jsString) : list Paper.t :=
  concat (List.map (parseArxivAPIResponse_entry categoryId) (xmlEntries h xmlText)).

(** [await fetch(url)] and [await response.text()] *)
Definition awaitFetch (url : jsString) : Async Response :=
  mkAsync [url]
    match fetch h url with
    | Rejected => Throw NetworkFailure
    | Responded r => Normal r
    end.

Definition awaitText (response : Response) : Async jsString :=
  sync match body response with
       | Some text => Normal text
       | None => Throw NetworkFailure
       end.

(** How one turn of the proxy loop ends: [continue] (or falling off the end
    of the body), or [return papers]. *)
Inductive Turn : Type :=
  | Continue
  | Return (papers : list Paper.t).

(** The [try]/[catch] statement in the body of the proxy loop. *)
Definition tryProxy (parse : jsString -> list Paper.t) (url : jsString)
  : Async Turn :=
  tryCatchAsync
    (response ← awaitFetch url;
     if negb (ok response) then mret Continue
     else
       text ← awaitText response;
       let papers := parse text in
       if (0 <? length papers)%nat then mret (Return papers)
       else mret Continue)
    (fun error => mret Continue).

(** [for (const proxy of proxies) { const url = proxy +
    encodeURIComponent(target); try ... } return []]: the loop of [fetchFeed]
    and of [fetchFromArxivAPI], which differ in the target and the parser
    only. *)
Fixpoint proxyLoop (parse : jsString -> list Paper.t) (target : jsString)
  (proxies : list jsString) : Async (list Paper.t) :=
  match proxies with
  | [] => mret []
  | proxy :: rest =>
      encoded ← sync (encodeURIComponent target);
      turn ← tryProxy parse (proxy ++ encoded);
      match turn with
      | Return papers => mret papers
      | Continue => proxyLoop parse target rest
      end
  end.

Definition fetchFeed (feed : Feed) : Async (list Paper.t) :=
  proxyLoop (fun text => parseFeed text (feed_id feed)) (feed_url feed)
            CONFIG.corsProxies.

Definition formatArxivDate (date : LocalDate) : jsString :=
  String_of_N (getFullYear date) ++ pad2 (getMonth date + 1)
  ++ pad2 (getDate date) ++ lit "0000".

(** The constant [apiUrl] of [fetchFromArxivAPI]. *)
Definition apiUrl (category : jsString) (daysBack : N) : jsString :=
  let endDate := dateDaysAgo h 0 in
  let startDate := dateDaysAgo h daysBack in
  let dateQuery := lit "submittedDate:[" ++ formatArxivDate startDate
                   ++ lit "+TO+" ++ formatArxivDate endDate ++ lit "]" in
  let catQuery := lit "cat:" ++ category in
  let query := catQuery ++ lit "+AND+" ++ dateQuery in
  lit "https://export.arxiv.org/api/query?search_query=" ++ query
  ++ lit "&start=0&max_results=100&sortBy=submittedDate&sortOrder=descending".

Definition fetchFromArxivAPI (category : jsString) (daysBack : N)
  : Async (list Paper.t) :=
  proxyLoop (fun text => parseArxivAPIResponse text category)
            (apiUrl category daysBack) CONFIG.corsProxies.

(** The filter stages of [applyFilters]. *)
Definition inActiveCategories (st : State) (p : Paper.t) : bool :=
  bool_decide (Paper.category p ∈ activeCategories st).

Definition matchesSearch (query : jsString) (p : Paper.t) : bool :=
  includes (toLowerCase h (Paper.title p)) query
  || includes (toLowerCase h (Paper.abstract p)) query
  || includes (toLowerCase h (Paper.authors p)) query.

Definition matchesKeywords (keywords : list jsString) (p : Paper.t) : bool :=
  let text := toLowerCase h (Paper.title p ++ lit " " ++ Paper.abstract p) in
  existsb (fun kw => includes text kw) keywords.

(** [QUICK_FILTERS[key]] for the object's own keys.  A key that the object
    inherits ([constructor], [toString], ...) is not modelled: the program's
    lookup then yields a value without [some], and [applyFilters] throws as
    soon as a paper reaches the third stage.  The statements that depend on
    that stage assume an own key ([knownQuickFilter]). *)
Definition quickFilterKeywords (key : jsString) : option (list jsString) :=
  match List.find (fun kv => bool_decide (fst kv = key)) QUICK_FILTERS with
  | Some (_, Some keywords) => Some keywords
  | _ => None
  end.

Definition applyFilters (st : State) : State :=
  let filtered := papers st in
  let filtered := List.filter (inActiveCategories st) filtered in
  let filtered :=
    if truthy (searchQuery st) then
      let query := toLowerCase h (searchQuery st) in
      List.filter (matchesSearch query) filtered
    else filtered in
  let filtered :=
    if negb (bool_decide (quickFilter st = lit "all")) then
      match quickFilterKeywords (quickFilter st) with
      | Some keywords => List.filter (matchesKeywords keywords) filtered
      | None => filtered
      end
    else filtered in
  set_filteredPapers filtered st.

(** The deduplication loop of [fetchAllFeeds], with its two accumulators
    [seenIds] and [uniquePapers]. *)
Fixpoint dedupLoop (allPapers : list Paper.t) (seenIds : gset jsString)
  (uniquePapers : list Paper.t) : list Paper.t :=
  match allPapers with
  | [] => uniquePapers
  | paper :: rest =>
      if decide (Paper.id paper ∈ seenIds)
      then dedupLoop rest seenIds uniquePapers
      else dedupLoop rest ({[Paper.id paper]} ∪ seenIds) (uniquePapers ++ [paper])
  end.

(** [uniquePapers] as computed from [results]. *)
Definition mergedPapers (results : list (list Paper.t)) : list Paper.t :=
  let allPapers := concat results in
  dedupLoop allPapers ∅ [].

(** The four messages assigned to [state.error] (8212 is the dash and 34 the
    double quote of the first one). *)
Definition weekendMessage : jsString :=
  lit "No new papers today. arXiv does not publish on weekends" ++ [8212]
  ++ lit "try " ++ [34] ++ lit "Past 7 Days" ++ [34] ++ lit " instead!".
Definition unavailableMessage : jsString :=
  lit "No papers found. The feeds may be temporarily unavailable.".
Definition dateRangeMessage : jsString :=
  lit "No papers found for this date range. Try different categories.".
Definition failureMessage : jsString :=
  lit "Failed to load papers. Please try again.".

(** The [results] of a cycle: one task per configured feed, or one per
    active category. *)
Definition fetchResults (st : State) : Async (list (list Paper.t)) :=
  if bool_decide (dateRange st = lit "today") then
    let feedPromises := List.map fetchFeed CONFIG.feeds in
    Promise_all feedPromises
  else
    let daysBack := if bool_decide (dateRange st = lit "week") then 7 else 30 in
    let categories := activeCategories st in
    let apiPromises :=
      List.map (fun cat => fetchFromArxivAPI cat daysBack) categories in
    Promise_all apiPromises.

(** What the [if (state.papers.length === 0)] statement assigns to
    [state.error], if anything. *)
Definition emptyResultError (st : State) : State :=
  if (length (papers st) =? 0)%nat then
    if bool_decide (dateRange st = lit "today") then
      let day := getDay h in
      let isWeekend := (day =? 0) || (day =? 6) in
      set_error (Some (if isWeekend then weekendMessage else unavailableMessage)) st
    else set_error (Some dateRangeMessage) st
  else st.

(** [fetchAllFeeds].  The only statement of the [try] block that can throw
    is the [await] of the results, before any assignment of the block: the
    [catch] block therefore runs on the state the [try] block was entered
    with. *)
Definition fetchAllFeeds (st : State) : Async State :=
  let st := set_error None (set_isLoading true st) in
  tryCatchAsync
    (results ← fetchResults st;
     let uniquePapers := mergedPapers results in
     let st := set_isLoading false (set_papers uniquePapers st) in
     let st := emptyResultError st in
     mret (applyFilters st))
    (fun error =>
       mret (set_error (Some failureMessage) (set_isLoading false st))).

(** ** Bookmarks *)

Definition localStorage_getItem (w : World) : Completion (option jsString) :=
  if getItemThrows h then Throw StorageError else Normal (slot w).

Definition localStorage_setItem (value : jsString) (w : World) : Completion World :=
  if setItemThrows h then Throw StorageError
  else Normal (mkWorld (state w) (Some value)).

(** [JSON.parse(text)] as a completion. *)
Definition parseJSON (text : jsString) : Completion (list Bookmark.t) :=
  match JSON_parse h text with
  | Some v => Normal v
  | None => Throw SyntaxError
  end.

Definition loadBookmarks (w : World) : Completion World :=
  tryCatch
    (stored ← localStorage_getItem w;
     value ← match stored with
             | Some text => if truthy text then parseJSON text else Normal []
             | None => Normal []
             end;
     Normal (mkWorld (set_bookmarks value (state w)) (slot w)))
    (fun e => Normal (mkWorld (set_bookmarks [] (state w)) (slot w))).

Definition saveBookmarks (w : World) : Completion World :=
  tryCatch
    (localStorage_setItem (JSON_stringify h (bookmarks (state w))) w)
    (fun e => Normal w).

Definition isBookmarked (st : State) (paperId : jsString) : bool :=
  existsb (fun b => bool_decide (Bookmark.id b = paperId)) (bookmarks st).

(** [state.bookmarks.findIndex(b => b.id === paperId)]; [None] is [-1]. *)
Definition findIndex (paperId : jsString) (bs : list Bookmark.t) : option nat :=
  fst <$> list_find (fun b => Bookmark.id b = paperId) bs.

Definition toggleBookmark (paper : Paper.t) (w : World) : Completion World :=
  let st := state w in
  let st :=
    match findIndex (Paper.id paper) (bookmarks st) with
    | Some index => set_bookmarks (delete index (bookmarks st)) st
    | None =>
        set_bookmarks
          (bookmarks st ++
           [ {| Bookmark.id := Paper.id paper;
                Bookmark.title := Paper.title paper;
                Bookmark.link := Paper.link paper;
                Bookmark.category := Paper.category paper;
                Bookmark.addedAt := nowISO h |} ]) st
    end in
  saveBookmarks (mkWorld st (slot w)).

Definition removeBookmark (paperId : jsString) (w : World) : Completion World :=
  let st := state w in
  let st :=
    set_bookmarks
      (List.filter (fun b => negb (bool_decide (Bookmark.id b = paperId)))
                   (bookmarks st)) st in
  saveBookmarks (mkWorld st (slot w)).

End Program.

(** ** The user interface: what is shown, and the event handlers *)

Definition set_activeCategories (v : list jsString) (st : State) : State :=
  mkState (papers st) (filteredPapers st) (bookmarks st) v
          (searchQuery st) (quickFilter st) (dateRange st) (isLoading st) (error st).
Definition set_searchQuery (v : jsString) (st : State) : State :=
  mkState (papers st) (filteredPapers st) (bookmarks st) (activeCategories st)
          v (quickFilter st) (dateRange st) (isLoading st) (error st).
Definition set_quickFilter (v : jsString) (st : State) : State :=
  mkState (papers st) (filteredPapers st) (bookmarks st) (activeCategories st)
          (searchQuery st) v (dateRange st) (isLoading st) (error st).
Definition set_dateRange (v : jsString) (st : State) : State :=
  mkState (papers st) (filteredPapers st) (bookmarks st) (activeCategories st)
          (searchQuery st) (quickFilter st) v (isLoading st) (error st).

(** The properties of [elements] that [updateUI] assigns: the [style.display]
    of the four panels and the text of the error message. *)
Record Panels : Type := mkPanels {
  loading_display : jsString;
  error_display : jsString;
  errorMessage_textContent : jsString;
  emptyState_display : jsString;
  papersGrid_display : jsString
}.

(** Truthiness of [state.error]: [null] and [''] are falsy. *)
Definition truthyError (e : option jsString) : bool :=
  match e with
  | Some s => truthy s
  | None => false
  end.

Definition updateUI (st : State) (el : Panels) : Panels :=
  let loading := if isLoading st then lit "flex" else lit "none" in
  let showError := truthyError (error st) && negb (isLoading st) in
  let showEmpty := negb (isLoading st) && negb (truthyError (error st))
                   && (length (filteredPapers st) =? 0)%nat in
  {| loading_display := loading;
     error_display := if showError then lit "flex" else lit "none";
     errorMessage_textContent :=
       if showError then default [] (error st) else errorMessage_textContent el;
     emptyState_display := if showEmpty then lit "flex" else lit "none";
     papersGrid_display :=
       if isLoading st || truthyError (error st) || showEmpty
       then lit "none" else lit "grid" |}.

(** A panel is shown unless its [display] is ['none']. *)
Definition shown (display : jsString) : bool :=
  negb (bool_decide (display = lit "none")).

Section Handlers.

Variable h : Host.

(** [set.add(x)] and [set.delete(x)] on a [Set] kept in insertion order. *)
Definition Set_add (x : jsString) (set : list jsString) : list jsString :=
  if bool_decide (x ∈ set) then set else set ++ [x].

Definition Set_delete (x : jsString) (set : list jsString) : list jsString :=
  List.filter (fun y => negb (bool_decide (y = x))) set.

(** The ['change'] listener of the category checkboxes, for an event whose
    target has the given [type], [value] and [checked]. *)
Definition onCategoryChange (type value : jsString) (checked : bool) (st : State)
  : State :=
  if bool_decide (type = lit "checkbox") then
    let category := value in
    let st :=
      if checked
      then set_activeCategories (Set_add category (activeCategories st)) st
      else set_activeCategories (Set_delete category (activeCategories st)) st in
    applyFilters h st
  else st.

(** The ['change'] listener of the date range radio buttons. *)
Definition onDateRangeChange (type name value : jsString) (st : State)
  : Async State :=
  if bool_decide (type = lit "radio") && bool_decide (name = lit "dateRange")
  then fetchAllFeeds h (set_dateRange value st)
  else mret st.

(** The function that [debounce] delays: it reads the search box. *)
Definition onSearchInput (value : jsString) (st : State) : State :=
  applyFilters h (set_searchQuery (trim value) st).

(** The ['click'] listener of the clear button. *)
Definition onClearSearch (st : State) : State :=
  applyFilters h (set_searchQuery [] st).

(** The ['click'] listener of a quick filter chip with the given
    [data-filter]. *)
Definition onQuickFilter (filter : jsString) (st : State) : State :=
  applyFilters h (set_quickFilter filter st).

End Handlers.

(** ** The relay (server.js) *)

(** The constant [ALLOWED_HOSTS]. *)
Definition ALLOWED_HOSTS : list jsString :=
  [ lit "export.arxiv.org"; lit "arxiv.org"; lit "rss.arxiv.org" ].

(** [url.parse(req.url, true).query.url]: absent, one value, or the array of
    the values of a repeated parameter. *)
Inductive QueryValue : Type :=
  | QUndefined
  | QString (s : jsString)
  | QArray (values : list jsString).

(** Truthiness and [String(v)] of a query value. *)
Definition truthyQuery (v : QueryValue) : bool :=
  match v with
  | QUndefined => false
  | QString s => truthy s
  | QArray _ => true
  end.

Definition String_of_query (v : QueryValue) : jsString :=
  match v with
  | QUndefined => lit "undefined"
  | QString s => s
  | QArray values => join (lit ",") values
  end.

(** What the request handler does with a request: it ends the response with
    a status and, for an error, the message of the JSON body; or it reaches
    the call [https.get(targetUrl, ...)].  What that call then does (it
    throws for a URL that is not https, and whether an upstream is
    contacted) is not part of this model. *)
Inductive RelayAction : Type :=
  | Reply (status : N) (errorMessage : option jsString)
  | CallsHttpsGet (targetUrl : QueryValue).

(** The request handler up to the call of [https.get].  [hostnameOf x] is the
    [hostname] of [new URL(x)], [None] when the constructor throws. *)
Definition handleRequest (hostnameOf : jsString -> option jsString)
  (method : jsString) (queryUrl : QueryValue) : RelayAction :=
  if bool_decide (method = lit "OPTIONS") then Reply 204 None
  else
    let targetUrl := queryUrl in
    if negb (truthyQuery targetUrl)
    then Reply 400 (Some (lit "Missing url parameter"))
    else
      match hostnameOf (String_of_query targetUrl) with
      | None => Reply 400 (Some (lit "Invalid URL"))
      | Some hostname =>
          if negb (bool_decide (hostname ∈ ALLOWED_HOSTS))
          then Reply 403 (Some (lit "Host not allowed"))
          else CallsHttpsGet targetUrl
      end.

Arguments parseFeed_forEach h categoryId !items index /.
Arguments proxyLoop h parse target !proxies /.

(** ** Vocabulary of the statements *)

(** The first paper of a list carrying a given [id]. *)
Definition firstWithId (i : jsString) (l : list Paper.t) : option Paper.t :=
  List.find (fun p => bool_decide (Paper.id p = i)) l.

(** A candidate fails softly when the request is rejected, the status is not
    a success, the body cannot be read, or the body parses to no record. *)
Definition softFailure (h : Host) (parse : jsString -> list Paper.t)
  (url : jsString) : bool :=
  match fetch h url with
  | Rejected => true
  | Responded r =>
      negb (ok r) ||
      match body r with
      | None => true
      | Some text => (length (parse text) =? 0)%nat
      end
  end.

(** The message for an empty result, by mode and day of the week (0 is
    Sunday, 6 is Saturday). *)
Definition emptyResultMessage (mode : jsString) (day : N) : jsString :=
  if bool_decide (mode = lit "today") then
    if bool_decide (day = 0 \/ day = 6) then weekendMessage
    else unavailableMessage
  else dateRangeMessage.

(** The invariant of the deduplication loop: [seenIds] holds exactly the
    ids of [uniquePapers], and these are pairwise distinct. *)
Definition dedupInv (seen : gset jsString) (uniq : list Paper.t) : Prop :=
  (∀ i, i ∈ seen ↔ i ∈ List.map Paper.id uniq) ∧ NoDup (List.map Paper.id uniq).

(** [state] as the [try] block of [fetchAllFeeds] finds it. *)
Definition entering (st : State) : State := set_error None (set_isLoading true st).

(** [state] when the [try] block completes with the given [results]. *)
Definition completing (h : Host) (st : State) (results : list (list Paper.t))
  : State :=
  applyFilters h
    (emptyResultError h
       (set_isLoading false (set_papers (mergedPapers results) (entering st)))).

(** The URL requested from a candidate proxy for an encoded target. *)
Definition candidateUrl (encoded proxy : jsString) : jsString := proxy ++ encoded.

(** White space in a text is well placed when every white-space character
    is a space and none follows another ([prev] tells whether the character
    before the text is white space). *)
Fixpoint wellSpaced (prev : bool) (s : jsString) : bool :=
  match s with
  | [] => true
  | c :: r =>
      if isSpace c then (c =? 32) && negb prev && wellSpaced true r
      else wellSpaced false r
  end.

(** Decimal digits. *)
Definition isDigit (c : N) : bool := (48 <=? c) && (c <=? 57).

(** A local date of the common era: a four-digit year, a month from 0 to 11
    and a day from 1 to 31. *)
Definition plainDate (date : LocalDate) : Prop :=
  1000 ≤ getFullYear date < 10000 ∧ getMonth date < 12
  ∧ 1 ≤ getDate date ≤ 31.



(** The papers a state's filters keep: those of an active category that
    match the search query, if there is one, and a keyword of the selected
    quick filter, if one is selected. *)
Definition keeps (h : Host) (st : State) (p : Paper.t) : bool :=
  inActiveCategories st p
  && (if truthy (searchQuery st)
      then matchesSearch h (toLowerCase h (searchQuery st)) p
      else true)
  && (if bool_decide (quickFilter st = lit "all") then true
      else match quickFilterKeywords (quickFilter st) with
           | Some keywords => matchesKeywords h keywords p
           | None => true
           end).

(** The quick filter keys the program defines: the own keys of
    [QUICK_FILTERS]. *)
Definition knownQuickFilter (key : jsString) : Prop :=
  key ∈ List.map fst QUICK_FILTERS.

(** ** Concrete browsers and inputs *)

(** A browser with no network, empty documents and a stopped clock. *)
Definition offlineHost : Host :=
  {| fetch := fun _ => Rejected;
     xmlItems := fun _ => [];
     xmlEntries := fun _ => [];
     nowISO := lit "2024-01-06T12:00:00.000Z";
     getDay := 6;
     dateDaysAgo := fun d => mkLocalDate 2024 0 (31 - d);
     toLowerCase := fun s => s;
     JSON_parse := fun _ => None;
     JSON_stringify := fun _ => lit "[]";
     getItemThrows := false;
     setItemThrows := false |}.

(** A browser whose network answers every request with the same document,
    read as the given items and entries. *)
Definition servingHost (items : list RssItem) (entries : list AtomEntry) : Host :=
  {| fetch := fun _ => Responded (mkResponse true (Some (lit "<doc/>")));
     xmlItems := fun _ => items;
     xmlEntries := fun _ => entries;
     nowISO := nowISO offlineHost;
     getDay := 2;
     dateDaysAgo := dateDaysAgo offlineHost;
     toLowerCase := toLowerCase offlineHost;
     JSON_parse := JSON_parse offlineHost;
     JSON_stringify := JSON_stringify offlineHost;
     getItemThrows := false;
     setItemThrows := false |}.

(** An item as the daily feed lists it. *)
Definition sampleItem : RssItem :=
  mkRssItem (Some (lit "Attention Is All You Need"))
            (Some (lit "https://arxiv.org/abs/2401.00001"))
            (Some (lit "<p>We propose a new architecture.</p>"))
            (Some (lit "A. Vaswani")) None.

(** An item whose title is nothing but a category tag. *)
Definition tagOnlyItem : RssItem :=
  mkRssItem (Some (lit "(cs.LG)"))
            (Some (lit "https://arxiv.org/abs/2401.00001"))
            None None None.

(** An item whose link uses the plain http scheme. *)
Definition httpItem : RssItem :=
  mkRssItem (Some (lit "Attention Is All You Need"))
            (Some (lit "http://arxiv.org/abs/2401.00001"))
            None None None.

(** An entry as the query interface lists it, with its pdf and alternate
    links. *)
Definition sampleEntry : AtomEntry :=
  mkAtomEntry (Some (lit "Attention Is All You Need"))
              (Some (lit "http://arxiv.org/abs/2401.00001v1"))
              (Some (lit "We propose a new architecture."))
              [lit "A. Vaswani"; lit "N. Shazeer"]
              (Some (Some (lit "http://arxiv.org/pdf/2401.00001v1")))
              (Some (Some (lit "http://arxiv.org/abs/2401.00001v1"))).

Definition samplePaper : Paper.t :=
  {| Paper.id := lit "2401.00001";
     Paper.title := lit "Attention Is All You Need";
     Paper.link := lit "https://arxiv.org/abs/2401.00001";
     Paper.abstract := lit "We propose a new architecture.";
     Paper.authors := lit "A. Vaswani";
     Paper.category := lit "cs.LG";
     Paper.fetchedAt := lit "2024-01-05T12:00:00.000Z" |}.

Definition sampleBookmark : Bookmark.t :=
  {| Bookmark.id := lit "2401.00001";
     Bookmark.title := lit "Attention Is All You Need";
     Bookmark.link := lit "https://arxiv.org/abs/2401.00001";
     Bookmark.category := lit "cs.LG";
     Bookmark.addedAt := lit "2024-01-05T13:00:00.000Z" |}.

(** The record [parseFeed] makes of [sampleItem] for a category. *)
Definition sampleItemPaper (category : jsString) : Paper.t :=
  {| Paper.id := lit "2401.00001";
     Paper.title := lit "Attention Is All You Need";
     Paper.link := lit "https://arxiv.org/abs/2401.00001";
     Paper.abstract := lit "We propose a new architecture.";
     Paper.authors := lit "A. Vaswani";
     Paper.category := category;
     Paper.fetchedAt := nowISO offlineHost |}.

(** The results of a snapshot cycle in which every feed lists [sampleItem]. *)
Definition sampleResults : list (list Paper.t) :=
  List.map (fun feed => [sampleItemPaper (feed_id feed)]) CONFIG.feeds.

(** The first configured feed and its encoded URL. *)
Definition sampleFeed : Feed :=
  mkFeed (lit "cs.LG") (lit "Machine Learning") (lit "https://export.arxiv.org/rss/cs.LG").

Definition sampleEncoded : jsString :=
  lit "https%3A%2F%2Fexport.arxiv.org%2Frss%2Fcs.LG".

(** A browser for which the local proxy is down, the first public proxy
    answers with an error status, the second with a page that holds no item,
    and the third with the feed. *)
Definition flakyHost : Host :=
  {| fetch := fun url =>
       if startsWith (lit "http://localhost:3001/") url then Rejected
       else if startsWith (lit "https://api.codetabs.com/") url
       then Responded (mkResponse false (Some (lit "Too Many Requests")))
       else if startsWith (lit "https://corsproxy.io/") url
       then Responded (mkResponse true (Some (lit "<html/>")))
       else Responded (mkResponse true (Some (lit "<rss/>")));
     xmlItems := fun text =>
       if bool_decide (text = lit "<rss/>") then [sampleItem] else [];
     xmlEntries := fun _ => [];
     nowISO := nowISO offlineHost;
     getDay := 2;
     dateDaysAgo := dateDaysAgo offlineHost;
     toLowerCase := toLowerCase offlineHost;
     JSON_parse := JSON_parse offlineHost;
     JSON_stringify := JSON_stringify offlineHost;
     getItemThrows := false;
     setItemThrows := false |}.

(** A browser whose [JSON] handles one bookmark list, the one holding
    [sampleBookmark]. *)
Definition jsonHost : Host :=
  {| fetch := fetch offlineHost;
     xmlItems := xmlItems offlineHost;
     xmlEntries := xmlEntries offlineHost;
     nowISO := nowISO offlineHost;
     getDay := getDay offlineHost;
     dateDaysAgo := dateDaysAgo offlineHost;
     toLowerCase := toLowerCase offlineHost;
     JSON_parse := fun text =>
       if bool_decide (text = lit "[sampleBookmark]") then Some [sampleBookmark]
       else None;
     JSON_stringify := fun bs =>
       if bool_decide (bs = []) then lit "[]" else lit "[sampleBookmark]";
     getItemThrows := false;
     setItemThrows := false |}.




(** [toLowerCase] on the letters A to Z, and a browser that has it. *)
Definition asciiLowerCase (s : jsString) : jsString :=
  List.map (fun c => if (65 <=? c) && (c <=? 90) then c + 32 else c) s.

Definition readerHost : Host :=
  {| fetch := fetch offlineHost;
     xmlItems := xmlItems offlineHost;
     xmlEntries := xmlEntries offlineHost;
     nowISO := nowISO offlineHost;
     getDay := getDay offlineHost;
     dateDaysAgo := dateDaysAgo offlineHost;
     toLowerCase := asciiLowerCase;
     JSON_parse := JSON_parse offlineHost;
     JSON_stringify := JSON_stringify offlineHost;
     getItemThrows := false;
     setItemThrows := false |}.

(** A paper of another category. *)
Definition visionPaper : Paper.t :=
  {| Paper.id := lit "2401.00002";
     Paper.title := lit "Diffusion Models for Images";
     Paper.link := lit "https://arxiv.org/abs/2401.00002";
     Paper.abstract := lit "A score-based approach to image synthesis.";
     Paper.authors := lit "J. Ho";
     Paper.category := lit "cs.CV";
     Paper.fetchedAt := lit "2024-01-05T12:00:00.000Z" |}.

(** A state with two papers, both categories active, a search query and the
    quick filter ['transformer'], whose filtered papers are out of date. *)
Definition filteringState : State :=
  mkState [samplePaper; visionPaper] [] []
          [lit "cs.LG"; lit "cs.CV"] (lit "architecture") (lit "transformer")
          (lit "today") false None.

(** The initial state once two papers of different categories have been
    fetched. *)
Definition twoPapersState : State :=
  mkState [samplePaper; visionPaper] [samplePaper; visionPaper] []
          (activeCategories initialState) [] (lit "all") (lit "today") false None.

(** A state in ranged-query mode. *)
Definition rangedState (mode : jsString) (categories : list jsString)
  (previous : list Paper.t) : State :=
  mkState previous previous [] categories [] (lit "all") mode false None.

(** * Properties *)

(** ** The asynchronous monad *)

Lemma settled_bind {A B} (m : Async A) (f : A -> Async B) :
  settled (m ≫= f) =
  match settled m with
  | Normal a => settled (f a)
  | Throw e => Throw e
  end.
Proof. unfold mbind, Async_bind. by destruct (settled m). Qed.

(** ** Deduplication *)

Section Dedup.

Implicit Types (l all uniq : list Paper.t) (seen : gset jsString).

Lemma firstWithId_app i l1 l2 :
  firstWithId i (l1 ++ l2) =
  match firstWithId i l1 with
  | Some p => Some p
  | None => firstWithId i l2
  end.
Proof.
  unfold firstWithId. induction l1 as [|p l1 IH]; simpl; [done|].
  by destruct (bool_decide (Paper.id p = i)).
Qed.

Lemma firstWithId_None i l :
  firstWithId i l = None ↔ i ∉ List.map Paper.id l.
Proof.
  unfold firstWithId. induction l as [|p l IH]; simpl.
  - split; [intros _; apply not_elem_of_nil | done].
  - rewrite not_elem_of_cons. case_bool_decide; split.
    + done.
    + intros [? _]. congruence.
    + intros ?. split; [congruence | by apply IH].
    + intros [_ ?]. by apply IH.
Qed.

Lemma firstWithId_Some i l p :
  firstWithId i l = Some p → p ∈ l ∧ Paper.id p = i.
Proof.
  unfold firstWithId. intros [Hin Hp]%List.find_some.
  split; [by apply list_elem_of_In | by apply bool_decide_eq_true in Hp].
Qed.

Lemma dedupInv_init : dedupInv ∅ [].
Proof. split; [set_solver | constructor]. Qed.

Lemma dedupInv_push seen uniq p :
  dedupInv seen uniq → Paper.id p ∉ seen →
  dedupInv ({[Paper.id p]} ∪ seen) (uniq ++ [p]).
Proof.
  intros [Hseen Hnd] Hfresh. split.
  - intros i.
    rewrite List.map_app, elem_of_app, elem_of_union, Hseen, elem_of_singleton.
    simpl. rewrite list_elem_of_singleton. tauto.
  - rewrite List.map_app. simpl. apply NoDup_app. split_and!.
    + done.
    + intros i Hi ->%list_elem_of_singleton. by apply Hfresh, Hseen.
    + apply NoDup_singleton.
Qed.

Lemma dedupLoop_NoDup all seen uniq :
  dedupInv seen uniq → NoDup (List.map Paper.id (dedupLoop all seen uniq)).
Proof.
  revert seen uniq. induction all as [|p all IH]; intros seen uniq Hinv; simpl.
  - apply Hinv.
  - case_decide; [by apply IH | by apply IH, dedupInv_push].
Qed.

Lemma dedupLoop_first all seen uniq i :
  dedupInv seen uniq →
  firstWithId i (dedupLoop all seen uniq) = firstWithId i (uniq ++ all).
Proof.
  revert seen uniq. induction all as [|p all IH]; intros seen uniq Hinv; simpl.
  - by rewrite app_nil_r.
  - case_decide as Hseen.
    + rewrite (IH _ _ Hinv), !firstWithId_app.
      destruct (firstWithId i uniq) as [q|] eqn:Hq; [done|].
      unfold firstWithId at 2. simpl. case_bool_decide as Hi; [|done].
      apply firstWithId_None in Hq. destruct Hq. rewrite <- Hi. by apply Hinv.
    + rewrite (IH _ _ (dedupInv_push _ _ _ Hinv Hseen)).
      by rewrite <- app_assoc.
Qed.

Lemma dedupLoop_sublist all seen uniq :
  ∃ kept, dedupLoop all seen uniq = uniq ++ kept ∧ kept `sublist_of` all.
Proof.
  revert seen uniq. induction all as [|p all IH]; intros seen uniq; simpl.
  - exists []. by rewrite app_nil_r.
  - case_decide.
    + destruct (IH seen uniq) as (kept & -> & Hsub).
      exists kept. split; [done | by apply sublist_cons].
    + destruct (IH ({[Paper.id p]} ∪ seen) (uniq ++ [p])) as (kept & -> & Hsub).
      exists (p :: kept). split; [by rewrite <- app_assoc | by apply sublist_skip].
Qed.

Lemma mergedPapers_NoDup results :
  NoDup (List.map Paper.id (mergedPapers results)).
Proof. apply dedupLoop_NoDup, dedupInv_init. Qed.

Lemma mergedPapers_first results i :
  firstWithId i (mergedPapers results) = firstWithId i (concat results).
Proof. unfold mergedPapers. by rewrite (dedupLoop_first _ ∅ [] i dedupInv_init). Qed.

Lemma mergedPapers_sublist results :
  mergedPapers results `sublist_of` concat results.
Proof.
  unfold mergedPapers.
  by destruct (dedupLoop_sublist (concat results) ∅ []) as (kept & -> & Hsub).
Qed.

End Dedup.

(** ** The aggregation cycle *)

Section Aggregation.

Variable h : Host.

Lemma fetchResults_entering st : fetchResults h (entering st) = fetchResults h st.
Proof. reflexivity. Qed.

Lemma fetchAllFeeds_fulfilled st results :
  settled (fetchResults h st) = Normal results →
  fetchAllFeeds h st =
  mkAsync (requests (fetchResults h st)) (Normal (completing h st results)).
Proof.
  intros Hres. unfold fetchAllFeeds, tryCatchAsync, mbind, Async_bind.
  change (fetchResults h _) with (fetchResults h st). rewrite Hres. simpl.
  by rewrite ?app_nil_r.
Qed.

Lemma fetchAllFeeds_rejected st e :
  settled (fetchResults h st) = Throw e →
  fetchAllFeeds h st =
  mkAsync (requests (fetchResults h st))
          (Normal (set_error (Some failureMessage) (set_isLoading false (entering st)))).
Proof.
  intros Hres. unfold fetchAllFeeds, tryCatchAsync, mbind, Async_bind.
  change (fetchResults h _) with (fetchResults h st). rewrite Hres. simpl.
  by rewrite ?app_nil_r.
Qed.

Lemma papers_applyFilters st : papers (applyFilters h st) = papers st.
Proof. reflexivity. Qed.

Lemma error_applyFilters st : error (applyFilters h st) = error st.
Proof. reflexivity. Qed.

Lemma papers_emptyResultError st : papers (emptyResultError h st) = papers st.
Proof. unfold emptyResultError. by repeat case_match. Qed.

Lemma papers_completing st results :
  papers (completing h st results) = mergedPapers results.
Proof. unfold completing. by rewrite papers_applyFilters, papers_emptyResultError. Qed.

Lemma error_completing_empty st results :
  mergedPapers results = [] →
  error (completing h st results) =
  Some (emptyResultMessage (dateRange st) (getDay h)).
Proof.
  intros Hempty. unfold completing. rewrite error_applyFilters.
  unfold emptyResultError, emptyResultMessage. simpl. rewrite Hempty. simpl.
  case_bool_decide; [|done]. simpl. f_equal.
  destruct (N.eqb_spec (getDay h) 0), (N.eqb_spec (getDay h) 6);
    case_bool_decide; simpl; (done || tauto).
Qed.


(** The four messages are pairwise distinct. *)
Lemma messages_distinct :
  NoDup [weekendMessage; unavailableMessage; dateRangeMessage; failureMessage].
Proof.
  repeat (apply NoDup_cons; split;
          [rewrite ?elem_of_cons, elem_of_nil; vm_compute; intuition discriminate|]).
  apply NoDup_nil_2.
Qed.

(** X27. Distinctness of the paper ids is an invariant of the state: every
    cycle, failed or not, ends normally in a state that has it when the
    state it started from had it. *)
Lemma fetchAllFeeds_preserves_NoDup st :
  NoDup (List.map Paper.id (papers st)) →
  ∃ st', settled (fetchAllFeeds h st) = Normal st'
    ∧ NoDup (List.map Paper.id (papers st')).
Proof.
  intros Hnd. destruct (settled (fetchResults h st)) as [results|e] eqn:Hres.
  - rewrite (fetchAllFeeds_fulfilled _ _ Hres). eexists. split; [done|].
    rewrite papers_completing. apply mergedPapers_NoDup.
  - rewrite (fetchAllFeeds_rejected _ _ Hres). by eexists.
Qed.

(** C1. In a cycle of either mode whose fetches complete, the papers stored
    in the state have pairwise distinct ids, they are taken from the
    concatenation of the per-source results in its order, and for every id
    the stored paper carrying it is the first one of the concatenation that
    carries it: the earlier source wins, later duplicates are dropped. *)
Theorem fetchAllFeeds_dedup (st : State) (results : list (list Paper.t)) :
  settled (fetchResults h st) = Normal results →
  ∃ st', settled (fetchAllFeeds h st) = Normal st'
    ∧ NoDup (List.map Paper.id (papers st'))
    ∧ papers st' `sublist_of` concat results
    ∧ ∀ i, firstWithId i (papers st') = firstWithId i (concat results).
Proof.
  intros Hres. exists (completing h st results).
  rewrite (fetchAllFeeds_fulfilled _ _ Hres), papers_completing. split_and!.
  - done.
  - apply mergedPapers_NoDup.
  - apply mergedPapers_sublist.
  - apply mergedPapers_first.
Qed.

(** C4. When the concurrent fetches of a cycle throw, the cycle itself still
    completes: it reports the generic failure message, clears the loading
    flag and leaves the papers of the previous cycle (and the filtered
    papers) as they were. *)
Theorem fetchAllFeeds_failure_keeps_papers (st : State) (e : JsError) :
  settled (fetchResults h st) = Throw e →
  ∃ st', settled (fetchAllFeeds h st) = Normal st'
    ∧ error st' = Some failureMessage
    ∧ isLoading st' = false
    ∧ papers st' = papers st
    ∧ filteredPapers st' = filteredPapers st.
Proof.
  intros Hres. rewrite (fetchAllFeeds_rejected _ _ Hres). by eexists.
Qed.

(** C7. When a cycle merges to zero papers, the message it reports is
    [emptyResultMessage] of the mode and the day of the week alone: the
    weekend message in snapshot mode on a Sunday (0) or Saturday (6), the
    unavailability message in snapshot mode on the other days, and the
    try-different-categories message in ranged-query mode. *)
Theorem fetchAllFeeds_empty_message (st : State) (results : list (list Paper.t)) :
  settled (fetchResults h st) = Normal results →
  mergedPapers results = [] →
  ∃ st', settled (fetchAllFeeds h st) = Normal st'
    ∧ papers st' = []
    ∧ error st' = Some (emptyResultMessage (dateRange st) (getDay h))
    ∧ (dateRange st = lit "today" → getDay h = 0 ∨ getDay h = 6 →
       error st' = Some weekendMessage)
    ∧ (dateRange st = lit "today" → getDay h ≠ 0 → getDay h ≠ 6 →
       error st' = Some unavailableMessage)
    ∧ (dateRange st ≠ lit "today" → error st' = Some dateRangeMessage).
Proof.
  intros Hres Hempty. exists (completing h st results).
  rewrite (fetchAllFeeds_fulfilled _ _ Hres), papers_completing,
    (error_completing_empty _ _ Hempty).
  unfold emptyResultMessage. split_and!; try done.
  - intros -> Hday. rewrite bool_decide_eq_true_2 by done.
    by rewrite bool_decide_eq_true_2.
  - intros -> H0 H6. rewrite bool_decide_eq_true_2 by done.
    rewrite bool_decide_eq_false_2; [done | tauto].
  - intros Hmode. by rewrite bool_decide_eq_false_2.
Qed.

(** C10. In ranged-query mode with no active category, a cycle requests
    nothing, replaces the papers by the empty list and reports the
    date-range message. *)
Theorem fetchAllFeeds_no_category (st : State) :
  dateRange st ≠ lit "today" →
  activeCategories st = [] →
  ∃ st', fetchAllFeeds h st = mkAsync [] (Normal st')
    ∧ papers st' = []
    ∧ filteredPapers st' = []
    ∧ isLoading st' = false
    ∧ error st' = Some dateRangeMessage.
Proof.
  intros Hmode Hcats.
  assert (Hres : fetchResults h st = mkAsync [] (Normal [])).
  { unfold fetchResults. rewrite bool_decide_eq_false_2 by done.
    by rewrite Hcats. }
  exists (completing h st []).
  rewrite (fetchAllFeeds_fulfilled st []) by (by rewrite Hres).
  rewrite Hres, papers_completing. split_and!; try done.
  - unfold completing, applyFilters. simpl.
    rewrite papers_emptyResultError. simpl. by repeat case_match.
  - unfold completing, applyFilters, emptyResultError. simpl.
    by repeat case_match.
  - rewrite (error_completing_empty st []) by done.
    unfold emptyResultMessage. by rewrite bool_decide_eq_false_2.
Qed.

End Aggregation.

(** ** The proxy chain *)

Section Chain.

Variable h : Host.
Variable parse : jsString -> list Paper.t.

Lemma tryProxy_softFailure url :
  softFailure h parse url = true →
  tryProxy h parse url = mkAsync [url] (Normal Continue).
Proof.
  unfold softFailure, tryProxy, tryCatchAsync, awaitFetch, awaitText, sync,
    mbind, Async_bind, mret, Async_ret.
  destruct (fetch h url) as [|[[] [text|]]]; simpl; try done.
  destruct (parse text); simpl; done.
Qed.

Lemma tryProxy_success url :
  softFailure h parse url = false →
  ∃ text, fetch h url = Responded (mkResponse true (Some text))
    ∧ parse text ≠ []
    ∧ tryProxy h parse url = mkAsync [url] (Normal (Return (parse text))).
Proof.
  unfold softFailure, tryProxy, tryCatchAsync, awaitFetch, awaitText, sync,
    mbind, Async_bind, mret, Async_ret.
  destruct (fetch h url) as [|[[] [text|]]]; simpl; try done.
  intros Hlen. exists text. destruct (parse text); simpl in *; done.
Qed.

Variable target encoded : jsString.
Hypothesis Hencoded : encodeURIComponent target = Normal encoded.

Lemma proxyLoop_cons proxy rest :
  proxyLoop h parse target (proxy :: rest) =
  tryProxy h parse (candidateUrl encoded proxy) ≫= fun turn =>
    match turn with
    | Return papers => mret papers
    | Continue => proxyLoop h parse target rest
    end.
Proof.
  simpl. unfold sync. rewrite Hencoded. unfold mbind at 1, Async_bind at 1.
  simpl. unfold mbind, Async_bind. by destruct (settled _).
Qed.

Lemma proxyLoop_fulfils proxies :
  ∃ papers, settled (proxyLoop h parse target proxies) = Normal papers.
Proof.
  induction proxies as [|proxy rest IH]; [by eexists|].
  rewrite proxyLoop_cons, settled_bind.
  destruct (softFailure h parse (candidateUrl encoded proxy)) eqn:Hsoft.
  - by rewrite (tryProxy_softFailure _ Hsoft).
  - destruct (tryProxy_success _ Hsoft) as (text & _ & _ & ->). by eexists.
Qed.

Lemma proxyLoop_exhausted proxies :
  (∀ proxy, proxy ∈ proxies →
     softFailure h parse (candidateUrl encoded proxy) = true) →
  proxyLoop h parse target proxies =
  mkAsync (List.map (candidateUrl encoded) proxies) (Normal []).
Proof.
  induction proxies as [|proxy rest IH]; intros Hall; [done|].
  rewrite proxyLoop_cons, tryProxy_softFailure by (apply Hall; left).
  unfold mbind, Async_bind. simpl.
  rewrite IH; [done|]. intros q Hq. apply Hall. by right.
Qed.

Lemma proxyLoop_first_success proxies i proxy :
  proxies !! i = Some proxy →
  softFailure h parse (candidateUrl encoded proxy) = false →
  (∀ j earlier, (j < i)%nat → proxies !! j = Some earlier →
     softFailure h parse (candidateUrl encoded earlier) = true) →
  ∃ text, fetch h (candidateUrl encoded proxy) = Responded (mkResponse true (Some text))
    ∧ parse text ≠ []
    ∧ proxyLoop h parse target proxies =
      mkAsync (List.map (candidateUrl encoded) (take (S i) proxies))
              (Normal (parse text)).
Proof.
  revert i. induction proxies as [|q rest IH]; intros i Hi Hok Hearlier; [done|].
  rewrite proxyLoop_cons. destruct i as [|i]; simpl in Hi.
  - injection Hi as ->.
    destruct (tryProxy_success _ Hok) as (text & Hfetch & Hne & ->).
    exists text. split_and!; [done..|].
    unfold mbind, Async_bind. simpl. by rewrite ?take_0.
  - rewrite tryProxy_softFailure by (apply (Hearlier O); [lia | done]).
    destruct (IH i Hi Hok) as (text & Hfetch & Hne & ->).
    { intros j earlier Hj Hlook. apply (Hearlier (S j)); [lia | done]. }
    exists text. split_and!; [done..|].
    unfold mbind, Async_bind. by simpl.
Qed.

End Chain.

(** C3. For a feed whose URL encodes (every configured one does), the chain
    requests the configured proxies in their order, each at most once: a
    rejected request, a status that is not a success, an unreadable body or
    a body parsing to no record moves to the next proxy.  The first proxy
    that does not fail ends the chain with its records; when all fail, all
    have been requested once and the result is the empty list.  In no case
    does the chain throw. *)
Theorem fetchFeed_chain (h : Host) (feed : Feed) (encoded : jsString) :
  encodeURIComponent (feed_url feed) = Normal encoded →
  let parse := fun text => parseFeed h text (feed_id feed) in
  (∃ papers, settled (fetchFeed h feed) = Normal papers)
  ∧ ((∀ proxy, proxy ∈ CONFIG.corsProxies →
        softFailure h parse (candidateUrl encoded proxy) = true) →
     fetchFeed h feed =
     mkAsync (List.map (candidateUrl encoded) CONFIG.corsProxies) (Normal []))
  ∧ (∀ i proxy,
       CONFIG.corsProxies !! i = Some proxy →
       softFailure h parse (candidateUrl encoded proxy) = false →
       (∀ j earlier, (j < i)%nat → CONFIG.corsProxies !! j = Some earlier →
          softFailure h parse (candidateUrl encoded earlier) = true) →
       ∃ text,
         fetch h (candidateUrl encoded proxy) = Responded (mkResponse true (Some text))
         ∧ parse text ≠ []
         ∧ fetchFeed h feed =
           mkAsync (List.map (candidateUrl encoded) (take (S i) CONFIG.corsProxies))
                   (Normal (parse text))).
Proof.
  intros Henc parse. unfold fetchFeed. fold parse. split_and!.
  - by apply (proxyLoop_fulfils h parse _ encoded).
  - by apply proxyLoop_exhausted.
  - intros i proxy. by apply proxyLoop_first_success.
Qed.

(** X10. The chain of [fetchFromArxivAPI] behaves in the same way: for a
    query URL that encodes, it never rejects; when every proxy fails it has
    requested each of them once, in order, and yields the empty list; the
    first proxy that does not fail ends it with the records parsed from its
    body. *)
Lemma fetchFromArxivAPI_chain (h : Host) (category : jsString) (daysBack : N)
  (encoded : jsString) :
  encodeURIComponent (apiUrl h category daysBack) = Normal encoded →
  let parse := fun text => parseArxivAPIResponse h text category in
  (∃ papers, settled (fetchFromArxivAPI h category daysBack) = Normal papers)
  ∧ ((∀ proxy, proxy ∈ CONFIG.corsProxies →
        softFailure h parse (candidateUrl encoded proxy) = true) →
     fetchFromArxivAPI h category daysBack =
     mkAsync (List.map (candidateUrl encoded) CONFIG.corsProxies) (Normal []))
  ∧ (∀ i proxy,
       CONFIG.corsProxies !! i = Some proxy →
       softFailure h parse (candidateUrl encoded proxy) = false →
       (∀ j earlier, (j < i)%nat → CONFIG.corsProxies !! j = Some earlier →
          softFailure h parse (candidateUrl encoded earlier) = true) →
       ∃ text,
         fetch h (candidateUrl encoded proxy) = Responded (mkResponse true (Some text))
         ∧ parse text ≠ []
         ∧ fetchFromArxivAPI h category daysBack =
           mkAsync (List.map (candidateUrl encoded) (take (S i) CONFIG.corsProxies))
                   (Normal (parse text))).
Proof.
  intros Henc parse. unfold fetchFromArxivAPI. fold parse. split_and!.
  - by apply (proxyLoop_fulfils h parse _ encoded).
  - by apply proxyLoop_exhausted.
  - intros i proxy. by apply proxyLoop_first_success.
Qed.

(** [encodeURIComponent] throws on unpaired surrogates only. *)
Lemma encodeURIComponent_no_surrogate (s : jsString) :
  Forall (fun c => isLeadSurrogate c = false ∧ isTrailSurrogate c = false) s →
  ∃ encoded, encodeURIComponent s = Normal encoded.
Proof.
  induction 1 as [|c r [Hlead Htrail] _ [encoded IH]]; [by eexists|].
  simpl. rewrite Hlead, Htrail, IH. destruct (isUnreserved c); by eexists.
Qed.

(** A target with an unpaired surrogate makes the chain reject. *)
Lemma proxyLoop_rejects (h : Host) (parse : jsString -> list Paper.t)
  (target : jsString) (e : JsError) (proxy : jsString) (rest : list jsString) :
  encodeURIComponent target = Throw e →
  proxyLoop h parse target (proxy :: rest) = mkAsync [] (Throw e).
Proof. intros Henc. simpl. unfold sync. by rewrite Henc. Qed.

(** Every configured feed URL encodes. *)
Lemma CONFIG_feeds_encode (feed : Feed) :
  feed ∈ CONFIG.feeds → ∃ encoded, encodeURIComponent (feed_url feed) = Normal encoded.
Proof.
  unfold CONFIG.feeds. rewrite !elem_of_cons, elem_of_nil.
  intros Hfeed. decompose [or] Hfeed; subst; try done; by vm_compute; eexists.
Qed.

(** X26. For each of the seven configured feeds, [fetchFeed] fulfils,
    whatever the network does. *)
Lemma fetchFeed_configured_fulfils (h : Host) (feed : Feed) :
  feed ∈ CONFIG.feeds → ∃ papers, settled (fetchFeed h feed) = Normal papers.
Proof.
  intros [encoded Henc]%CONFIG_feeds_encode.
  by apply (proxyLoop_fulfils h _ _ encoded).
Qed.

(** ** The parsers *)

Section Parsers.

Variable h : Host.

Lemma truthy_true s : truthy s = true ↔ s ≠ [].
Proof. by destruct s. Qed.

Lemma replaceFirst_nonempty pat rep s :
  rep ≠ [] → s ≠ [] → replaceFirst pat rep s ≠ [].
Proof.
  intros Hrep Hs. destruct s as [|c r]; [done|].
  simpl. destruct (startsWith pat (c :: r)); [|done].
  by destruct rep.
Qed.

Lemma startsWith_app p s : startsWith p (p ++ s) = true.
Proof. induction p as [|a p IH]; simpl; [done|]. by rewrite N.eqb_refl. Qed.

Lemma replaceFirst_prefix pat rep s :
  startsWith pat s = true → startsWith rep (replaceFirst pat rep s) = true.
Proof.
  intros Hpre. destruct s as [|c r]; simpl in *; rewrite Hpre;
    apply startsWith_app.
Qed.

Lemma parseFeed_forEach_elem categoryId items index p :
  p ∈ parseFeed_forEach h categoryId items index →
  ∃ item k, item ∈ items ∧ p ∈ parseFeed_item h categoryId item k.
Proof.
  revert index. induction items as [|item rest IH]; intros index; simpl.
  - by intros ?%elem_of_nil.
  - intros [Hp|Hp]%elem_of_app.
    + exists item, index. split; [left | done].
    + destruct (IH _ Hp) as (item' & k & Hin & Hp'). exists item', k.
      split; [by right | done].
Qed.

(** What [parseFeed] does guarantee: the link of a record is never empty,
    and its title was not empty before the category tag was removed. *)
Lemma parseFeed_link_nonempty xmlText categoryId p :
  p ∈ parseFeed h xmlText categoryId → Paper.link p ≠ [].
Proof.
  intros (item & k & _ & Hp)%parseFeed_forEach_elem.
  unfold parseFeed_item in Hp.
  destruct (truthy (cleanText _) && truthy _) eqn:Hguard;
    [|by apply elem_of_nil in Hp].
  apply list_elem_of_singleton in Hp as ->. simpl.
  apply andb_true_iff in Hguard as [_ Hlink]. by apply truthy_true.
Qed.

Lemma parseFeed_title_before_strip xmlText categoryId p :
  p ∈ parseFeed h xmlText categoryId →
  ∃ title, title ≠ [] ∧ Paper.title p = stripCategoryPrefix title.
Proof.
  intros (item & k & _ & Hp)%parseFeed_forEach_elem.
  unfold parseFeed_item in Hp.
  destruct (truthy (cleanText _) && truthy _) eqn:Hguard;
    [|by apply elem_of_nil in Hp].
  apply list_elem_of_singleton in Hp as ->. cbn [Paper.title].
  apply andb_true_iff in Hguard as [Htitle _]. eexists.
  split; [by apply truthy_true|done].
Qed.

(** [parseFeed] copies the link of the item. *)
Lemma parseFeed_link_verbatim xmlText categoryId p :
  p ∈ parseFeed h xmlText categoryId →
  ∃ item, item ∈ xmlItems h xmlText ∧ Paper.link p = textOr (item_link item) [].
Proof.
  intros (item & k & Hin & Hp)%parseFeed_forEach_elem. exists item.
  split; [done|]. unfold parseFeed_item in Hp.
  destruct (truthy (cleanText _) && truthy _); [|by apply elem_of_nil in Hp].
  by apply list_elem_of_singleton in Hp as ->.
Qed.

Lemma parseArxivAPIResponse_elem xmlText categoryId p :
  p ∈ parseArxivAPIResponse h xmlText categoryId →
  ∃ entry, entry ∈ xmlEntries h xmlText
    ∧ p ∈ parseArxivAPIResponse_entry h categoryId entry.
Proof.
  unfold parseArxivAPIResponse. intros Hp%list_elem_of_In%in_concat.
  destruct Hp as (ps & Hps%in_map_iff & Hp). destruct Hps as (entry & <- & Hin).
  exists entry. by rewrite !list_elem_of_In.
Qed.

(** [parseArxivAPIResponse] never outputs a record with an empty title, an
    empty id or an empty link. *)
Lemma parseArxivAPIResponse_nonempty xmlText categoryId p :
  p ∈ parseArxivAPIResponse h xmlText categoryId →
  Paper.title p ≠ [] ∧ Paper.id p ≠ [] ∧ Paper.link p ≠ [].
Proof.
  intros (entry & _ & Hp)%parseArxivAPIResponse_elem.
  unfold parseArxivAPIResponse_entry in Hp.
  set (id := textOr (entry_id entry) []) in *.
  destruct (truthy (cleanText _) && truthy _) eqn:Hguard;
    [|by apply elem_of_nil in Hp].
  apply list_elem_of_singleton in Hp as ->. simpl.
  apply andb_true_iff in Hguard as [Htitle Hid].
  apply truthy_true in Htitle, Hid. split_and!; [done..|].
  apply replaceFirst_nonempty; [done|].
  intros Hnil. rewrite Hnil in Hid. by apply Hid.
Qed.

(** The link of a record of [parseArxivAPIResponse] is computed from the
    entry's id alone, whatever its [link] elements are; an id that begins
    with the http scheme gives a link that begins with the https scheme. *)
Lemma parseArxivAPIResponse_link xmlText categoryId p :
  p ∈ parseArxivAPIResponse h xmlText categoryId →
  ∃ entry, entry ∈ xmlEntries h xmlText
    ∧ Paper.link p =
      replaceFirst (lit "http://") (lit "https://") (textOr (entry_id entry) [])
    ∧ (startsWith (lit "http://") (textOr (entry_id entry) []) = true →
       startsWith (lit "https://") (Paper.link p) = true).
Proof.
  intros (entry & Hin & Hp)%parseArxivAPIResponse_elem. exists entry.
  unfold parseArxivAPIResponse_entry in Hp.
  destruct (truthy (cleanText _) && truthy _); [|by apply elem_of_nil in Hp].
  apply list_elem_of_singleton in Hp as ->. cbn [Paper.link].
  split_and!; [done..|]. apply replaceFirst_prefix.
Qed.

End Parsers.

(** C2. [parseFeed] tests the title before it removes the category tag: an
    item whose title is only a tag, here [(cs.LG)], passes the test and is
    output with the empty title. *)
Theorem parseFeed_empty_title :
  List.map Paper.title
    (parseFeed (servingHost [tagOnlyItem] []) (lit "<doc/>") (lit "cs.LG"))
  = [ [] ].
Proof. vm_compute. reflexivity. Qed.

(** C5. [parseFeed] outputs the link of an item as it is: an item whose link
    uses the http scheme gives a record whose link uses the http scheme. *)
Theorem parseFeed_http_link :
  List.map Paper.link
    (parseFeed (servingHost [httpItem] []) (lit "<doc/>") (lit "cs.LG"))
  = [ lit "http://arxiv.org/abs/2401.00001" ].
Proof. vm_compute. reflexivity. Qed.

(** C6. [parseArxivAPIResponse] computes the preferred link of an entry
    ([entryLink]: the pdf link here) and does not use it: the record's link
    is the entry's id with its scheme upgraded. *)
Theorem parseArxivAPIResponse_ignores_pdf_link :
  entryLink sampleEntry = lit "http://arxiv.org/pdf/2401.00001v1"
  ∧ List.map Paper.link
      (parseArxivAPIResponse (servingHost [] [sampleEntry]) (lit "<doc/>") (lit "cs.LG"))
    = [ lit "https://arxiv.org/abs/2401.00001v1" ].
Proof. split; vm_compute; reflexivity. Qed.

(** ** The bookmark store *)

Section Bookmarks.

Variable h : Host.

(** C8. [loadBookmarks] always completes normally and leaves the storage
    slot as it is.  The bookmark list it installs is empty when the storage
    cannot be read, when the slot is absent or holds the empty string, and
    when the slot's content does not parse; otherwise it is the parsed
    content. *)
Theorem loadBookmarks_never_throws (w : World) :
  ∃ w', loadBookmarks h w = Normal w'
    ∧ slot w' = slot w
    ∧ (getItemThrows h = true → bookmarks (state w') = [])
    ∧ (slot w = None → bookmarks (state w') = [])
    ∧ (slot w = Some [] → bookmarks (state w') = [])
    ∧ (∀ text, slot w = Some text → JSON_parse h text = None →
         bookmarks (state w') = [])
    ∧ (∀ text value, getItemThrows h = false → slot w = Some text → text ≠ [] →
         JSON_parse h text = Some value → bookmarks (state w') = value).
Proof.
  unfold loadBookmarks, localStorage_getItem, parseJSON, tryCatch,
    mbind, Completion_bind.
  destruct (getItemThrows h); [by eexists|].
  destruct (slot w) as [[|c text]|]; simpl;
    [| destruct (JSON_parse h (c :: text)) as [value|] eqn:Hparse |];
    (eexists; split; [reflexivity|]; simpl; split_and!; intros;
     simplify_eq; done).
Qed.

Lemma saveBookmarks_state (w : World) :
  ∃ w', saveBookmarks h w = Normal w' ∧ state w' = state w.
Proof.
  unfold saveBookmarks, localStorage_setItem, tryCatch.
  destruct (setItemThrows h); by eexists.
Qed.

Lemma findIndex_Some paperId bs i :
  findIndex paperId bs = Some i →
  ∃ b, bs !! i = Some b ∧ Bookmark.id b = paperId
    ∧ ∀ j b', (j < i)%nat → bs !! j = Some b' → Bookmark.id b' ≠ paperId.
Proof.
  unfold findIndex. destruct (list_find _ bs) as [[k b]|] eqn:Hfind; [|done].
  intros [= <-]. apply list_find_Some in Hfind as (Hk & Hb & Hbefore).
  exists b. split_and!; [done..|]. intros j b' Hj Hlook. by eapply Hbefore.
Qed.

Lemma isBookmarked_findIndex st paperId :
  isBookmarked st paperId = true → is_Some (findIndex paperId (bookmarks st)).
Proof.
  unfold isBookmarked, findIndex. intros (b & Hin & Hb)%existsb_exists.
  apply bool_decide_eq_true in Hb. apply list_elem_of_In in Hin.
  destruct (list_find_elem_of (fun b => Bookmark.id b = paperId) _ b Hin Hb)
    as [[i b'] ->].
  by eexists.
Qed.

Lemma saveBookmarks_slot (w : World) :
  ∃ w', saveBookmarks h w = Normal w'
    ∧ state w' = state w
    ∧ slot w' = if setItemThrows h then slot w
                else Some (JSON_stringify h (bookmarks (state w))).
Proof.
  unfold saveBookmarks, localStorage_setItem, tryCatch.
  destruct (setItemThrows h); by eexists.
Qed.


(** [toggleBookmark] on a paper whose id is not bookmarked appends its
    projection. *)
Lemma toggleBookmark_adds (paper : Paper.t) (w : World) :
  isBookmarked (state w) (Paper.id paper) = false →
  ∃ w', toggleBookmark h paper w = Normal w'
    ∧ bookmarks (state w') =
      bookmarks (state w) ++
      [ Bookmark.mk (Paper.id paper) (Paper.title paper) (Paper.link paper)
                    (Paper.category paper) (nowISO h) ].
Proof.
  intros Hnot. unfold toggleBookmark.
  destruct (findIndex _ _) as [i|] eqn:Hi.
  - destruct (findIndex_Some _ _ _ Hi) as (b & Hlook & Hb & _).
    assert (isBookmarked (state w) (Paper.id paper) = true); [|congruence].
    apply existsb_exists. exists b. split.
    + apply list_elem_of_In, list_elem_of_lookup. by exists i.
    + by apply bool_decide_eq_true.
  - destruct (saveBookmarks_state (mkWorld (set_bookmarks
        (bookmarks (state w) ++
         [Bookmark.mk (Paper.id paper) (Paper.title paper) (Paper.link paper)
            (Paper.category paper) (nowISO h)]) (state w)) (slot w)))
      as (w' & -> & Hst).
    exists w'. by rewrite Hst.
Qed.

End Bookmarks.

(** ** The statements at concrete inputs *)

Lemma fetchAllFeeds_dedup_witness :
  settled (fetchResults (servingHost [sampleItem] []) initialState)
  = Normal sampleResults
  ∧ ∃ st',
      settled (fetchAllFeeds (servingHost [sampleItem] []) initialState) = Normal st'
      ∧ NoDup (List.map Paper.id (papers st'))
      ∧ papers st' `sublist_of` concat sampleResults
      ∧ ∀ i, firstWithId i (papers st') = firstWithId i (concat sampleResults).
Proof.
  split; [vm_compute; reflexivity|].
  apply fetchAllFeeds_dedup. vm_compute. reflexivity.
Defined.

(** Seven sources return a record with the same id: the merged collection
    holds one record, the one of the first source. *)
Example fetchAllFeeds_same_id :
  papers <$> settled (fetchAllFeeds (servingHost [sampleItem] []) initialState)
  = Normal [ sampleItemPaper (lit "cs.LG") ].
Proof. vm_compute. reflexivity. Qed.

Lemma fetchFeed_chain_witness :
  encodeURIComponent (feed_url sampleFeed) = Normal sampleEncoded
  ∧ fetchFeed flakyHost sampleFeed =
    mkAsync (List.map (candidateUrl sampleEncoded) CONFIG.corsProxies)
            (Normal [ sampleItemPaper (lit "cs.LG") ]).
Proof.
  assert (Henc : encodeURIComponent (feed_url sampleFeed) = Normal sampleEncoded)
    by (vm_compute; reflexivity).
  split; [exact Henc|].
  destruct (fetchFeed_chain flakyHost sampleFeed sampleEncoded Henc)
    as (_ & _ & Hfirst).
  destruct (Hfirst 3%nat (lit "https://api.allorigins.win/raw?url="))
    as (text & Hfetch & _ & ->).
  - reflexivity.
  - vm_compute. reflexivity.
  - intros [|[|[|j]]] earlier Hj Hlook; [..|lia];
      injection Hlook as <-; vm_compute; reflexivity.
  - vm_compute in Hfetch. injection Hfetch as <-. vm_compute. reflexivity.
Defined.

Lemma fetchAllFeeds_failure_keeps_papers_witness :
  settled (fetchResults offlineHost (rangedState (lit "week") [[55296]] [samplePaper]))
  = Throw URIError
  ∧ ∃ st',
      settled (fetchAllFeeds offlineHost
                 (rangedState (lit "week") [[55296]] [samplePaper])) = Normal st'
      ∧ error st' = Some failureMessage
      ∧ isLoading st' = false
      ∧ papers st' = [samplePaper]
      ∧ filteredPapers st' = [samplePaper].
Proof.
  split; [vm_compute; reflexivity|].
  apply (fetchAllFeeds_failure_keeps_papers offlineHost
           (rangedState (lit "week") [[55296]] [samplePaper]) URIError).
  vm_compute. reflexivity.
Defined.

Lemma fetchAllFeeds_empty_message_witness :
  settled (fetchResults offlineHost initialState) = Normal (replicate 7 [])
  ∧ mergedPapers (replicate 7 []) = []
  ∧ ∃ st',
      settled (fetchAllFeeds offlineHost initialState) = Normal st'
      ∧ papers st' = []
      ∧ error st' = Some weekendMessage.
Proof.
  assert (Hres : settled (fetchResults offlineHost initialState)
                 = Normal (replicate 7 [])) by (vm_compute; reflexivity).
  assert (Hempty : mergedPapers (replicate 7 []) = []) by reflexivity.
  split_and!; [done..|].
  destruct (fetchAllFeeds_empty_message offlineHost initialState _ Hres Hempty)
    as (st' & Hst' & Hpapers & _ & Hweekend & _).
  exists st'. split_and!; [done..|]. apply Hweekend; [reflexivity | by right].
Defined.

Lemma fetchAllFeeds_no_category_witness :
  dateRange (rangedState (lit "month") [] [samplePaper]) ≠ lit "today"
  ∧ activeCategories (rangedState (lit "month") [] [samplePaper]) = []
  ∧ ∃ st',
      fetchAllFeeds (servingHost [sampleItem] [sampleEntry])
        (rangedState (lit "month") [] [samplePaper]) = mkAsync [] (Normal st')
      ∧ papers st' = []
      ∧ filteredPapers st' = []
      ∧ isLoading st' = false
      ∧ error st' = Some dateRangeMessage.
Proof.
  assert (Hmode : dateRange (rangedState (lit "month") [] [samplePaper])
                  ≠ lit "today") by (vm_compute; discriminate).
  split_and!; [exact Hmode | reflexivity |].
  by apply fetchAllFeeds_no_category.
Defined.

(** An input of [loadBookmarks] whose slot does not parse. *)
Example loadBookmarks_corrupted :
  loadBookmarks offlineHost
    (mkWorld (set_bookmarks [sampleBookmark] initialState) (Some (lit "[{")))
  = Normal (mkWorld initialState (Some (lit "[{"))).
Proof. reflexivity. Qed.



(** * Further properties *)

(** ** String helpers *)

Section Strings.

Implicit Types (s t p : jsString) (f : N → bool).

Lemma takeWhile_dropWhile f s : takeWhile f s ++ dropWhile f s = s.
Proof.
  induction s as [|c r IH]; simpl; [done|].
  destruct (f c); simpl; [by rewrite IH | done].
Qed.

Lemma takeWhile_Forall f s : Forall (fun c => f c = true) (takeWhile f s).
Proof.
  induction s as [|c r IH]; simpl; [constructor|].
  destruct (f c) eqn:Hc; by constructor.
Qed.

Lemma dropWhile_head f s c r : dropWhile f s = c :: r → f c = false.
Proof.
  induction s as [|d s IH]; simpl; [done|].
  destruct (f d) eqn:Hd; [done|]. by intros [= <- _].
Qed.

Lemma dropWhile_all f s : Forall (fun c => f c = true) s → dropWhile f s = [].
Proof. induction 1 as [|c r Hc _ IH]; simpl; [done|]. by rewrite Hc. Qed.

Lemma startsWith_split p s :
  startsWith p s = true → s = p ++ drop (length p) s.
Proof.
  revert s. induction p as [|a p IH]; intros [|b s]; simpl; try done.
  intros [->%N.eqb_eq Hp]%andb_true_iff. f_equal. by apply IH.
Qed.

(** What [trim] returns is a segment of its argument. *)
Lemma trim_segment s : ∃ pre post, s = pre ++ trim s ++ post.
Proof.
  unfold trim, trimEnd, trimStart.
  exists (takeWhile isSpace s),
         (rev (takeWhile isSpace (rev (dropWhile isSpace s)))).
  rewrite <- rev_app_distr, takeWhile_dropWhile, rev_involutive.
  by rewrite takeWhile_dropWhile.
Qed.

Lemma trim_first s c r : trim s = c :: r → isSpace c = false.
Proof.
  unfold trim, trimEnd, trimStart. intros Htrim.
  destruct (dropWhile isSpace s) as [|d ds] eqn:Hdrop; [done|].
  assert (Hd : isSpace d = false) by (by eapply dropWhile_head).
  pose proof (takeWhile_dropWhile isSpace (rev (d :: ds))) as Hsplit.
  apply (f_equal (@rev N)) in Hsplit.
  rewrite rev_app_distr, rev_involutive, Htrim in Hsplit.
  by injection Hsplit as <- _.
Qed.

Lemma trim_last s r c : trim s = r ++ [c] → isSpace c = false.
Proof.
  unfold trim, trimEnd. intros Htrim.
  apply (f_equal (@rev N)) in Htrim.
  rewrite rev_involutive, rev_app_distr in Htrim. simpl in Htrim.
  by eapply dropWhile_head.
Qed.

(** A string of white space trims to the empty string. *)
Lemma trim_blank s : Forall (fun c => isSpace c = true) s → trim s = [].
Proof.
  intros Hs. unfold trim, trimEnd, trimStart. by rewrite (dropWhile_all _ _ Hs).
Qed.

Lemma wellSpaced_weaken s : wellSpaced true s = true → wellSpaced false s = true.
Proof.
  destruct s as [|c r]; simpl; [done|].
  destruct (isSpace c); [by rewrite andb_false_r | done].
Qed.

Lemma collapseSpaces_from_wellSpaced inRun s :
  wellSpaced inRun (collapseSpaces_from inRun s) = true.
Proof.
  revert inRun. induction s as [|c r IH]; intros inRun; simpl; [done|].
  destruct (isSpace c) eqn:Hc.
  - destruct inRun; simpl; [apply IH|]. by rewrite IH.
  - simpl. by rewrite Hc.
Qed.

Lemma wellSpaced_app_inv prev l1 l2 :
  wellSpaced prev (l1 ++ l2) = true →
  wellSpaced prev l1 = true ∧ wellSpaced false l2 = true.
Proof.
  revert prev. induction l1 as [|c r IH]; intros prev; simpl.
  - intros H. split; [done|]. destruct prev; [by apply wellSpaced_weaken | done].
  - destruct (isSpace c).
    + intros [[-> ->]%andb_true_iff Hr]%andb_true_iff. simpl.
      destruct (IH _ Hr) as [-> ?]. done.
    + apply IH.
Qed.

Lemma wellSpaced_elem prev s c :
  wellSpaced prev s = true → c ∈ s → isSpace c = true → c = 32.
Proof.
  revert prev. induction s as [|d r IH]; intros prev; simpl.
  - by intros _ ?%elem_of_nil.
  - intros Hw [->|Hin]%elem_of_cons Hc.
    + rewrite Hc in Hw. apply andb_true_iff in Hw as [[Heq _]%andb_true_iff _].
      by apply N.eqb_eq.
    + destruct (isSpace d).
      * apply andb_true_iff in Hw as [_ Hw]. by eapply IH.
      * by eapply IH.
Qed.

Lemma wellSpaced_adjacent prev l1 a b l2 :
  wellSpaced prev (l1 ++ a :: b :: l2) = true →
  isSpace a = true → isSpace b = false.
Proof.
  intros [_ Hw]%wellSpaced_app_inv Ha. simpl in Hw. rewrite Ha in Hw.
  apply andb_true_iff in Hw as [_ Hw].
  destruct (isSpace b); [|done]. by rewrite andb_false_r in Hw.
Qed.

(** X1. The text [cleanText] returns is tidy: its only white space is the
    space character, no two white-space characters are adjacent, and it
    neither begins nor ends with white space. *)
Theorem cleanText_tidy (text : jsString) :
  (∀ c, c ∈ cleanText text → isSpace c = true → c = 32)
  ∧ (∀ l1 a b l2, cleanText text = l1 ++ a :: b :: l2 →
       isSpace a = true → isSpace b = false)
  ∧ (∀ c r, cleanText text = c :: r → isSpace c = false)
  ∧ (∀ r c, cleanText text = r ++ [c] → isSpace c = false).
Proof.
  unfold cleanText.
  set (inner := collapseSpaces _).
  assert (Hinner : wellSpaced false inner = true)
    by apply collapseSpaces_from_wellSpaced.
  destruct (trim_segment inner) as (pre & post & Hseg).
  rewrite Hseg in Hinner.
  apply wellSpaced_app_inv in Hinner as [_ Hinner].
  apply wellSpaced_app_inv in Hinner as [Htrim _].
  split_and!.
  - intros c. by apply (wellSpaced_elem false).
  - intros l1 a b l2 Heq. rewrite Heq in Htrim. by eapply wellSpaced_adjacent.
  - apply trim_first.
  - apply trim_last.
Qed.

Lemma matchAbs_Some s g :
  matchAbs s = Some g →
  ∃ pre post, s = pre ++ lit "abs/" ++ g ++ post
    ∧ g ≠ []
    ∧ Forall (fun c => c ≠ ch "?") g
    ∧ (post = [] ∨ ∃ r, post = ch "?" :: r).
Proof.
  induction s as [|c r IH].
  - simpl. done.
  - cbn [matchAbs].
    destruct (startsWith (lit "abs/") (c :: r)) eqn:Hstart.
    + set (rest := drop 4 (c :: r)).
      destruct (takeWhile _ rest) as [|g0 gs] eqn:Htake.
      * intros (pre & post & -> & ?)%IH. by exists (c :: pre), post.
      * intros [= <-]. exists [], (dropWhile (fun c => negb (c =? ch "?")) rest).
        split_and!.
        -- rewrite <- Htake, takeWhile_dropWhile. simpl.
           by apply (startsWith_split (lit "abs/")).
        -- done.
        -- rewrite <- Htake. eapply Forall_impl; [apply takeWhile_Forall|].
           intros x Hx%negb_true_iff. by apply N.eqb_neq.
        -- destruct (dropWhile _ rest) as [|d ds] eqn:Hdrop; [by left|].
           right. exists ds. f_equal.
           apply dropWhile_head in Hdrop. apply negb_false_iff in Hdrop.
           by apply N.eqb_eq.
    + intros (pre & post & -> & ?)%IH. by exists (c :: pre), post.
Qed.

(** X2. A non-empty identifier extracted from a link stands in the link
    right after ["abs/"], contains no question mark, and extends to the
    next question mark or to the end of the link. *)
Theorem extractArxivId_shape (link : jsString) :
  extractArxivId link ≠ [] →
  ∃ pre post, link = pre ++ lit "abs/" ++ extractArxivId link ++ post
    ∧ Forall (fun c => c ≠ ch "?") (extractArxivId link)
    ∧ (post = [] ∨ ∃ r, post = ch "?" :: r).
Proof.
  unfold extractArxivId. destruct (matchAbs link) as [g|] eqn:Hmatch; [|done].
  intros _. destruct (matchAbs_Some _ _ Hmatch) as (pre & post & ? & _ & ? & ?).
  by exists pre, post.
Qed.

Lemma matchAbs_None s : includes s (lit "abs/") = false → matchAbs s = None.
Proof.
  induction s as [|c r IH]; [done|].
  cbn [includes matchAbs].
  intros [-> Hr]%orb_false_iff. by apply IH.
Qed.

(** X3. A link that does not contain ["abs/"] yields the empty
    identifier. *)
Theorem extractArxivId_no_abs (link : jsString) :
  includes link (lit "abs/") = false → extractArxivId link = [].
Proof. intros Hno. unfold extractArxivId. by rewrite matchAbs_None. Qed.

(** Checking a property of numbers on a whole range by evaluation. *)
Lemma forallb_range (P : N → bool) (lo len : N) :
  forallb (fun k => P (lo + N.of_nat k)) (seq 0 (N.to_nat len)) = true →
  ∀ n, lo ≤ n → n < lo + len → P n = true.
Proof.
  intros Hall n Hlo Hhi. rewrite forallb_forall in Hall.
  specialize (Hall (N.to_nat (n - lo))).
  replace (lo + N.of_nat (N.to_nat (n - lo))) with n in Hall by lia.
  apply Hall, in_seq. lia.
Qed.

Lemma pad2_length (n : N) : n < 100 → length (pad2 n) = 2%nat.
Proof.
  intros Hn. apply Nat.eqb_eq.
  apply (forallb_range (fun n => (length (pad2 n) =? 2)%nat) 0 100);
    [vm_compute; reflexivity | lia | lia].
Qed.

Lemma year_length (y : N) :
  1000 ≤ y → y < 10000 → length (String_of_N y) = 4%nat.
Proof.
  intros Hlo Hhi. apply Nat.eqb_eq.
  apply (forallb_range (fun n => (length (String_of_N n) =? 4)%nat) 1000 9000);
    [vm_compute; reflexivity | lia | lia].
Qed.

End Strings.

Section Dates.

Lemma String_of_N_digits_range (lo len n : N) :
  forallb (fun k => forallb isDigit (String_of_N (lo + N.of_nat k)))
          (seq 0 (N.to_nat len)) = true →
  lo ≤ n → n < lo + len → Forall (fun c => isDigit c = true) (String_of_N n).
Proof.
  intros Hall Hlo Hhi. apply Forall_forall. intros c Hc%list_elem_of_In.
  pose proof (forallb_range (fun n => forallb isDigit (String_of_N n))
                lo len Hall n Hlo Hhi) as Hn.
  simpl in Hn. rewrite forallb_forall in Hn. by apply Hn.
Qed.

Lemma pad2_digits (n : N) : n < 100 → Forall (fun c => isDigit c = true) (pad2 n).
Proof.
  intros Hn. apply Forall_forall. intros c Hc%list_elem_of_In.
  assert (Hpad : forallb isDigit (pad2 n) = true).
  { apply (forallb_range (fun n => forallb isDigit (pad2 n)) 0 100);
      [vm_compute; reflexivity | lia | lia]. }
  rewrite forallb_forall in Hpad. by apply Hpad.
Qed.

(** X4. For a date of the common era, [formatArxivDate] gives the stamp the
    query interface expects: twelve decimal digits, the last four being
    zeros. *)
Theorem formatArxivDate_stamp (date : LocalDate) :
  plainDate date →
  length (formatArxivDate date) = 12%nat
  ∧ Forall (fun c => isDigit c = true) (formatArxivDate date)
  ∧ drop 8 (formatArxivDate date) = lit "0000".
Proof.
  intros ([Hylo Hyhi] & Hm & [Hdlo Hdhi]). unfold formatArxivDate.
  pose proof (year_length _ Hylo Hyhi) as Hy.
  pose proof (pad2_length (getMonth date + 1) ltac:(lia)) as Hmo.
  pose proof (pad2_length (getDate date) ltac:(lia)) as Hda.
  split_and!.
  - rewrite !length_app, Hy, Hmo, Hda. reflexivity.
  - rewrite !Forall_app. split_and!.
    + apply (String_of_N_digits_range 1000 9000);
        [vm_compute; reflexivity | lia | lia].
    + apply pad2_digits. lia.
    + apply pad2_digits. lia.
    + by repeat constructor.
  - rewrite !app_assoc. rewrite drop_app_length'; [done|].
    rewrite !length_app, Hy, Hmo, Hda. reflexivity.
Qed.

End Dates.

(** ** Records of the parsers *)

Section ParserRecords.

Variable h : Host.

Lemma parseFeed_forEach_lookup categoryId items start p :
  p ∈ parseFeed_forEach h categoryId items start →
  ∃ k item, items !! k = Some item
    ∧ p ∈ parseFeed_item h categoryId item (start + N.of_nat k).
Proof.
  revert start. induction items as [|item rest IH]; intros start; simpl.
  - by intros ?%elem_of_nil.
  - intros [Hp|Hp]%elem_of_app.
    + exists O, item. split; [done|]. by rewrite N.add_0_r.
    + destruct (IH _ Hp) as (k & item' & Hk & Hp'). exists (S k), item'.
      split; [done|]. by replace (start + N.of_nat (S k)) with (start + 1 + N.of_nat k) by lia.
Qed.

Lemma parseFeed_forEach_length categoryId items start :
  (length (parseFeed_forEach h categoryId items start) ≤ length items)%nat.
Proof.
  revert start. induction items as [|item rest IH]; intros start; simpl; [done|].
  rewrite length_app. specialize (IH (start + 1)).
  assert (length (parseFeed_item h categoryId item start) ≤ 1)%nat; [|lia].
  unfold parseFeed_item. destruct (_ && _); simpl; lia.
Qed.


Lemma parseArxivAPIResponse_category xmlText categoryId p :
  p ∈ parseArxivAPIResponse h xmlText categoryId → Paper.category p = categoryId.
Proof.
  intros (entry & _ & Hp)%parseArxivAPIResponse_elem.
  unfold parseArxivAPIResponse_entry in Hp.
  destruct (_ && _); [|by apply elem_of_nil in Hp].
  by apply list_elem_of_singleton in Hp as ->.
Qed.

(** X5. Every record of [parseFeed] carries the category it was parsed for,
    the link of its item (never empty), the time of parsing, and an id that
    is never empty: the identifier extracted from the link or, when there is
    none, the category and the position of the item joined by a dash.  No
    item gives more than one record. *)
Theorem parseFeed_records (xmlText categoryId : jsString) :
  (length (parseFeed h xmlText categoryId) ≤ length (xmlItems h xmlText))%nat
  ∧ Forall (fun p =>
      Paper.category p = categoryId
      ∧ Paper.fetchedAt p = nowISO h
      ∧ Paper.link p ≠ []
      ∧ Paper.id p ≠ []
      ∧ ∃ k item, xmlItems h xmlText !! k = Some item
          ∧ Paper.link p = textOr (item_link item) []
          ∧ (Paper.id p = extractArxivId (Paper.link p)
             ∨ extractArxivId (Paper.link p) = []
               ∧ Paper.id p = categoryId ++ lit "-" ++ String_of_N (N.of_nat k)))
    (parseFeed h xmlText categoryId).
Proof.
  split; [apply parseFeed_forEach_length|].
  apply Forall_forall. intros p (k & item & Hk & Hp)%parseFeed_forEach_lookup.
  unfold parseFeed_item in Hp. rewrite N.add_0_l in Hp.
  destruct (truthy (cleanText _) && truthy _) eqn:Hguard;
    [|by apply elem_of_nil in Hp].
  apply list_elem_of_singleton in Hp as ->.
  cbn [Paper.category Paper.fetchedAt Paper.link Paper.id].
  apply andb_true_iff in Hguard as [_ Hlink%truthy_true].
  split_and!; [done..| |].
  - unfold orElse. destruct (extractArxivId _) as [|c r]; simpl; [|done].
    by destruct categoryId.
  - exists k, item. split_and!; [done..|].
    unfold orElse. destruct (extractArxivId _) as [|c r]; simpl; [right|left]; done.
Qed.

(** X6. Every record of [parseArxivAPIResponse] has a title, an id and a
    link that are not empty, carries the category it was parsed for, and
    its link is the entry's id with the first ["http://"] replaced by
    ["https://"]: an id beginning with the http scheme gives a link
    beginning with the https scheme. *)
Theorem parseArxivAPIResponse_records (xmlText categoryId : jsString) :
  Forall (fun p =>
      Paper.title p ≠ [] ∧ Paper.id p ≠ [] ∧ Paper.link p ≠ []
      ∧ Paper.category p = categoryId
      ∧ ∃ entry, entry ∈ xmlEntries h xmlText
          ∧ Paper.link p =
            replaceFirst (lit "http://") (lit "https://") (textOr (entry_id entry) [])
          ∧ (startsWith (lit "http://") (textOr (entry_id entry) []) = true →
             startsWith (lit "https://") (Paper.link p) = true))
    (parseArxivAPIResponse h xmlText categoryId).
Proof.
  apply Forall_forall. intros p Hp.
  destruct (parseArxivAPIResponse_nonempty h _ _ _ Hp) as (Ht & Hi & Hl).
  destruct (parseArxivAPIResponse_link h _ _ _ Hp) as (entry & Hin & Hlink & Hs).
  split_and!; [done..| |by exists entry].
  by eapply parseArxivAPIResponse_category.
Qed.

End ParserRecords.

(** ** The filter pipeline *)

Section Filters.

Variable h : Host.

Lemma filter_filter_andb {A} (f g : A → bool) (l : list A) :
  List.filter g (List.filter f l) = List.filter (fun x => f x && g x) l.
Proof.
  induction l as [|x l IH]; simpl; [done|].
  destruct (f x); simpl; [|done]. destruct (g x); by rewrite IH.
Qed.

Lemma filter_sublist {A} (f : A → bool) (l : list A) :
  List.filter f l `sublist_of` l.
Proof.
  induction l as [|x l IH]; simpl; [done|].
  destruct (f x); [by apply sublist_skip | by apply sublist_cons].
Qed.

Lemma filteredPapers_applyFilters (st : State) :
  filteredPapers (applyFilters h st) = List.filter (keeps h st) (papers st).
Proof.
  unfold applyFilters, keeps. simpl.
  destruct (truthy (searchQuery st));
    destruct (bool_decide (quickFilter st = lit "all")); simpl;
    try destruct (quickFilterKeywords (quickFilter st));
    rewrite ?filter_filter_andb;
    apply filter_ext; intros p; by rewrite ?andb_true_r, ?andb_assoc.
Qed.

(** X7. For a quick filter key the program defines, the three stages of
    [applyFilters] amount to one test per paper ([keeps]): the filtered
    papers are the papers passing it, in their order, and nothing but
    [filteredPapers] changes. *)
Theorem applyFilters_keeps (st : State) :
  knownQuickFilter (quickFilter st) →
  applyFilters h st = set_filteredPapers (List.filter (keeps h st) (papers st)) st.
Proof.
  intros _. rewrite <- filteredPapers_applyFilters. reflexivity.
Qed.

(** X8. For a quick filter key the program defines, filtering is
    idempotent, keeps the order of the papers, and shows only papers of
    active categories; with no active category it shows nothing. *)
Theorem applyFilters_sound (st : State) :
  knownQuickFilter (quickFilter st) →
  applyFilters h (applyFilters h st) = applyFilters h st
  ∧ filteredPapers (applyFilters h st) `sublist_of` papers st
  ∧ Forall (fun p => Paper.category p ∈ activeCategories st)
           (filteredPapers (applyFilters h st))
  ∧ (activeCategories st = [] → filteredPapers (applyFilters h st) = []).
Proof.
  intros _. split_and!.
  - reflexivity.
  - rewrite filteredPapers_applyFilters. apply filter_sublist.
  - rewrite filteredPapers_applyFilters. apply Forall_forall.
    intros p [_ Hp]%list_elem_of_In%filter_In. unfold keeps in Hp.
    apply andb_true_iff in Hp as [[Hp _]%andb_true_iff _].
    by apply bool_decide_eq_true in Hp.
  - intros Hnone. rewrite filteredPapers_applyFilters.
    induction (papers st) as [|p l IH]; simpl; [done|].
    unfold keeps at 1, inActiveCategories. rewrite Hnone.
    rewrite bool_decide_eq_false_2 by apply not_elem_of_nil. done.
Qed.

(** X9. With an empty search query and the quick filter ['all'], the
    filtered papers are exactly the papers of the active categories, in
    their order. *)
Theorem applyFilters_category_only (st : State) :
  searchQuery st = [] → quickFilter st = lit "all" →
  filteredPapers (applyFilters h st) =
  List.filter (fun p => bool_decide (Paper.category p ∈ activeCategories st))
              (papers st).
Proof.
  intros Hq Hk. rewrite filteredPapers_applyFilters. apply filter_ext.
  intros p. unfold keeps, inActiveCategories. rewrite Hq, Hk. simpl.
  by rewrite !andb_true_r.
Qed.

End Filters.

(** ** More on the chain and the cycle *)

Section Cycle.

Variable h : Host.


Lemma proxyLoop_requests parse target encoded proxies :
  encodeURIComponent target = Normal encoded →
  requests (proxyLoop h parse target proxies)
  `prefix_of` List.map (candidateUrl encoded) proxies.
Proof.
  intros Henc. induction proxies as [|proxy rest IH]; [done|].
  rewrite (proxyLoop_cons h parse target encoded Henc).
  destruct (softFailure h parse (candidateUrl encoded proxy)) eqn:Hsoft.
  - rewrite (tryProxy_softFailure _ _ _ Hsoft). unfold mbind, Async_bind. simpl.
    by apply prefix_cons.
  - destruct (tryProxy_success _ _ _ Hsoft) as (text & _ & _ & ->).
    unfold mbind, Async_bind. simpl. apply prefix_cons, prefix_nil.
Qed.





Lemma fetchAllFeeds_settles (st : State) :
  ∃ st', settled (fetchAllFeeds h st) = Normal st'
    ∧ isLoading st' = false
    ∧ bookmarks st' = bookmarks st.
Proof.
  destruct (settled (fetchResults h st)) as [results|e] eqn:Hres.
  - rewrite (fetchAllFeeds_fulfilled h _ _ Hres). eexists. split; [done|].
    unfold completing, applyFilters, emptyResultError. simpl.
    by repeat case_match.
  - rewrite (fetchAllFeeds_rejected h _ _ Hres). by eexists.
Qed.

(** X11. [fetchAllFeeds] never rejects.  Whatever the network does, it ends
    with the loading flag cleared, and it changes neither the bookmarks nor
    the active categories, the search query, the quick filter or the date
    range. *)
Theorem fetchAllFeeds_fulfils (st : State) :
  ∃ st', settled (fetchAllFeeds h st) = Normal st'
    ∧ isLoading st' = false
    ∧ bookmarks st' = bookmarks st
    ∧ activeCategories st' = activeCategories st
    ∧ searchQuery st' = searchQuery st
    ∧ quickFilter st' = quickFilter st
    ∧ dateRange st' = dateRange st.
Proof.
  destruct (settled (fetchResults h st)) as [results|e] eqn:Hres.
  - rewrite (fetchAllFeeds_fulfilled h _ _ Hres). eexists. split; [done|].
    unfold completing, applyFilters, emptyResultError. simpl.
    by repeat case_match.
  - rewrite (fetchAllFeeds_rejected h _ _ Hres). by eexists.
Qed.

Lemma dedupLoop_distinct all seen uniq :
  dedupInv seen uniq → NoDup (List.map Paper.id (uniq ++ all)) →
  dedupLoop all seen uniq = uniq ++ all.
Proof.
  revert seen uniq. induction all as [|p all IH]; intros seen uniq Hinv Hnd; simpl.
  - by rewrite app_nil_r.
  - case_decide as Hseen.
    + exfalso. apply Hinv in Hseen.
      rewrite List.map_app in Hnd. apply NoDup_app in Hnd as (_ & Hdisj & _).
      apply (Hdisj _ Hseen). simpl. left.
    + rewrite (IH _ _ (dedupInv_push _ _ _ Hinv Hseen)); rewrite <- app_assoc; done.
Qed.

(** X12. When the fetched records have pairwise distinct ids, merging drops
    none of them. *)
Theorem mergedPapers_distinct (results : list (list Paper.t)) :
  NoDup (List.map Paper.id (concat results)) →
  mergedPapers results = concat results.
Proof.
  intros Hnd. unfold mergedPapers.
  by rewrite (dedupLoop_distinct _ ∅ [] dedupInv_init Hnd).
Qed.


End Cycle.

(** ** More on the bookmark store *)

Section BookmarkStore.

Variable h : Host.

Lemma isBookmarked_false st paperId :
  isBookmarked st paperId = false ↔
  Forall (fun b => Bookmark.id b ≠ paperId) (bookmarks st).
Proof.
  unfold isBookmarked. induction (bookmarks st) as [|b bs IH]; simpl.
  - split; [constructor | done].
  - rewrite orb_false_iff, Forall_cons, IH, bool_decide_eq_false. done.
Qed.

Lemma isBookmarked_true st paperId :
  isBookmarked st paperId = true ↔ paperId ∈ List.map Bookmark.id (bookmarks st).
Proof.
  unfold isBookmarked. induction (bookmarks st) as [|b bs IH]; simpl.
  - split; [done | by intros ?%elem_of_nil].
  - rewrite orb_true_iff, elem_of_cons, IH, bool_decide_eq_true.
    split; intros [?|?]; auto.
Qed.


Lemma findIndex_app_fresh paperId bs b :
  Forall (fun b' => Bookmark.id b' ≠ paperId) bs → Bookmark.id b = paperId →
  findIndex paperId (bs ++ [b]) = Some (length bs).
Proof.
  intros Hbs Hb. unfold findIndex.
  induction Hbs as [|b' bs Hb' _ IH]; simpl.
  - by rewrite decide_True.
  - rewrite decide_False by done.
    destruct (list_find _ (bs ++ [b])) as [[i x]|]; simpl in *; [|done].
    by injection IH as ->.
Qed.

Lemma toggleBookmark_found (paper : Paper.t) (w : World) (i : nat) :
  findIndex (Paper.id paper) (bookmarks (state w)) = Some i →
  ∃ w', toggleBookmark h paper w = Normal w'
    ∧ bookmarks (state w') = delete i (bookmarks (state w)).
Proof.
  intros Hi. unfold toggleBookmark. rewrite Hi.
  destruct (saveBookmarks_slot h (mkWorld
    (set_bookmarks (delete i (bookmarks (state w))) (state w)) (slot w)))
    as (w' & -> & Hst & _).
  exists w'. by rewrite Hst.
Qed.

Lemma removeBookmark_bookmarks (paperId : jsString) (w : World) :
  ∃ w', removeBookmark h paperId w = Normal w'
    ∧ bookmarks (state w') =
      List.filter (fun b => negb (bool_decide (Bookmark.id b = paperId)))
                  (bookmarks (state w)).
Proof.
  unfold removeBookmark.
  destruct (saveBookmarks_slot h (mkWorld (set_bookmarks
    (List.filter (fun b => negb (bool_decide (Bookmark.id b = paperId)))
       (bookmarks (state w))) (state w)) (slot w))) as (w' & -> & Hst & _).
  exists w'. by rewrite Hst.
Qed.

(** X15. Toggling a paper that is not bookmarked bookmarks it, and toggling
    it again gives back the bookmark list one started from. *)
Theorem toggleBookmark_twice (paper : Paper.t) (w : World) :
  isBookmarked (state w) (Paper.id paper) = false →
  ∃ w1 w2, toggleBookmark h paper w = Normal w1
    ∧ isBookmarked (state w1) (Paper.id paper) = true
    ∧ toggleBookmark h paper w1 = Normal w2
    ∧ bookmarks (state w2) = bookmarks (state w).
Proof.
  intros Hnot.
  destruct (toggleBookmark_adds h paper w Hnot) as (w1 & Hw1 & Hbs1).
  assert (Hidx : findIndex (Paper.id paper) (bookmarks (state w1))
                 = Some (length (bookmarks (state w)))).
  { rewrite Hbs1. apply findIndex_app_fresh; [|done].
    by apply isBookmarked_false. }
  destruct (toggleBookmark_found paper w1 _ Hidx) as (w2 & Hw2 & Hbs2).
  exists w1, w2. split_and!; [done| |done|].
  - apply isBookmarked_true. rewrite Hbs1, List.map_app, elem_of_app. right.
    simpl. left.
  - rewrite Hbs2, Hbs1.
    rewrite (delete_middle (bookmarks (state w)) []). by rewrite app_nil_r.
Qed.

(** X16. [removeBookmark] leaves no bookmark with the given id and keeps
    all others in their order; on an id that is not bookmarked it leaves the
    list as it is. *)
Theorem removeBookmark_removes (paperId : jsString) (w : World) :
  ∃ w', removeBookmark h paperId w = Normal w'
    ∧ isBookmarked (state w') paperId = false
    ∧ bookmarks (state w') `sublist_of` bookmarks (state w)
    ∧ (∀ b, b ∈ bookmarks (state w) → Bookmark.id b ≠ paperId →
         b ∈ bookmarks (state w'))
    ∧ (isBookmarked (state w) paperId = false →
       bookmarks (state w') = bookmarks (state w)).
Proof.
  destruct (removeBookmark_bookmarks paperId w) as (w' & -> & Hbs).
  exists w'. split_and!.
  - done.
  - apply isBookmarked_false. rewrite Hbs. apply Forall_forall.
    intros b [_ Hb]%list_elem_of_In%filter_In.
    by apply negb_true_iff, bool_decide_eq_false in Hb.
  - rewrite Hbs. apply filter_sublist.
  - intros b Hin Hb. rewrite Hbs. apply list_elem_of_In, filter_In.
    split; [by apply list_elem_of_In|].
    by apply negb_true_iff, bool_decide_eq_false.
  - intros Hnot%isBookmarked_false. rewrite Hbs. clear Hbs.
    induction Hnot as [|b bs Hb _ IH]; simpl; [done|].
    rewrite bool_decide_eq_false_2 by done. simpl. by rewrite IH.
Qed.

(** X17. Distinctness of the bookmarked ids is kept by [toggleBookmark] and
    by [removeBookmark]; on a list with distinct ids, toggling a bookmarked
    paper leaves it not bookmarked, and toggling another one bookmarks
    it. *)
Theorem bookmarks_NoDup (paper : Paper.t) (paperId : jsString) (w : World) :
  NoDup (List.map Bookmark.id (bookmarks (state w))) →
  (∃ w', toggleBookmark h paper w = Normal w'
     ∧ NoDup (List.map Bookmark.id (bookmarks (state w')))
     ∧ isBookmarked (state w') (Paper.id paper)
       = negb (isBookmarked (state w) (Paper.id paper)))
  ∧ (∃ w', removeBookmark h paperId w = Normal w'
     ∧ NoDup (List.map Bookmark.id (bookmarks (state w')))).
Proof.
  intros Hnd. split.
  - destruct (isBookmarked (state w) (Paper.id paper)) eqn:Hbm.
    + destruct (isBookmarked_findIndex _ _ Hbm) as [i Hi].
      destruct (findIndex_Some _ _ _ Hi) as (b & Hlook & Hb & _).
      destruct (toggleBookmark_found paper w i Hi) as (w' & Hw' & Hbs).
      exists w'. rewrite <- (take_drop_middle _ _ _ Hlook), List.map_app in Hnd.
      simpl in Hnd.
      apply NoDup_app in Hnd as (Hnd1 & Hdisj & Hnd2).
      apply NoDup_cons in Hnd2 as [Hfresh Hnd2].
      rewrite Hbs, delete_take_drop. split_and!; [done| |].
      * rewrite List.map_app. apply NoDup_app. split_and!; [done| |done].
        intros j Hj1 Hj2. apply (Hdisj j Hj1). by right.
      * simpl. apply isBookmarked_false. rewrite Hbs, delete_take_drop.
        apply Forall_app. split; apply Forall_forall; intros b' Hb' Heq.
        -- apply (Hdisj (Bookmark.id b')).
           ++ apply list_elem_of_fmap. by exists b'.
           ++ rewrite Heq, <- Hb. left.
        -- apply Hfresh. rewrite Hb, <- Heq.
           apply list_elem_of_fmap. by exists b'.
    + destruct (toggleBookmark_adds h paper w Hbm) as (w' & Hw' & Hbs).
      exists w'. split_and!; [done| |].
      * rewrite Hbs, List.map_app. apply NoDup_app. split_and!; [done| |].
        -- intros i Hi ->%list_elem_of_singleton.
           apply isBookmarked_true in Hi. simpl in Hi. congruence.
        -- apply NoDup_singleton.
      * simpl. apply isBookmarked_true.
        rewrite Hbs, List.map_app, elem_of_app. right. left.
  - destruct (removeBookmark_bookmarks paperId w) as (w' & Hw' & Hbs).
    exists w'. split; [done|]. rewrite Hbs.
    eapply sublist_NoDup; [done|].
    apply (fmap_sublist Bookmark.id _ _ (filter_sublist _ _)).
Qed.

(** X18. What [saveBookmarks] stores, [loadBookmarks] restores on the next
    page load, provided the storage works and [JSON.parse] inverts
    [JSON.stringify] on the list (whose serialisation is never empty). *)
Theorem save_then_load (w : World) :
  getItemThrows h = false → setItemThrows h = false →
  JSON_stringify h (bookmarks (state w)) ≠ [] →
  JSON_parse h (JSON_stringify h (bookmarks (state w)))
  = Some (bookmarks (state w)) →
  ∃ w1 w2, saveBookmarks h w = Normal w1
    ∧ loadBookmarks h (mkWorld initialState (slot w1)) = Normal w2
    ∧ bookmarks (state w2) = bookmarks (state w).
Proof.
  intros Hget Hset Hne Hparse.
  destruct (saveBookmarks_slot h w) as (w1 & Hw1 & _ & Hslot).
  rewrite Hset in Hslot. exists w1.
  unfold loadBookmarks, localStorage_getItem, parseJSON, tryCatch,
    mbind, Completion_bind.
  rewrite Hget. simpl. rewrite Hslot.
  destruct (JSON_stringify h (bookmarks (state w))) as [|c text] eqn:Hjson;
    [done|].
  simpl. rewrite Hparse. by eexists.
Qed.

End BookmarkStore.

(** ** What the page shows *)

(** X19. After [updateUI] exactly one of the four panels is shown: the
    spinner while loading; otherwise the error panel, with the error as its
    text, when there is an error; otherwise the empty-state panel when no
    paper passes the filters; otherwise the grid. *)
Theorem updateUI_one_panel (st : State) (el : Panels) :
  let el' := updateUI st el in
  length (List.filter shown
            [loading_display el'; error_display el';
             emptyState_display el'; papersGrid_display el']) = 1%nat
  ∧ shown (loading_display el') = isLoading st
  ∧ shown (error_display el') = negb (isLoading st) && truthyError (error st)
  ∧ (shown (error_display el') = true →
     error st = Some (errorMessage_textContent el'))
  ∧ shown (papersGrid_display el')
    = negb (isLoading st) && negb (truthyError (error st))
      && negb (length (filteredPapers st) =? 0)%nat.
Proof.
  unfold updateUI.
  destruct (isLoading st), (error st) as [[|c msg]|],
    (filteredPapers st) as [|p ps]; simpl;
    (split_and!; [vm_compute; reflexivity..| |vm_compute; reflexivity]);
    vm_compute; congruence.
Qed.

(** ** Event handlers *)

Section HandlerProperties.

Variable h : Host.

Lemma Set_delete_not_elem x set : x ∉ Set_delete x set.
Proof.
  unfold Set_delete. intros [_ Hx]%list_elem_of_In%filter_In.
  by apply negb_true_iff, bool_decide_eq_false in Hx.
Qed.

Lemma Set_delete_fresh x set : x ∉ set → Set_delete x set = set.
Proof.
  unfold Set_delete. induction set as [|y set IH]; simpl; [done|].
  intros [Hne Hset]%not_elem_of_cons.
  rewrite bool_decide_eq_false_2 by done. simpl. by rewrite IH.
Qed.

Lemma Set_delete_add x set : x ∉ set → Set_delete x (Set_add x set) = set.
Proof.
  intros Hx. unfold Set_add. rewrite bool_decide_eq_false_2 by done.
  unfold Set_delete. rewrite List.filter_app. simpl.
  rewrite bool_decide_eq_true_2 by done. simpl. rewrite app_nil_r.
  by apply Set_delete_fresh.
Qed.

(** X20. In a state whose quick filter key is one the program defines,
    unchecking a category removes it from the active categories and leaves
    no paper of that category among the filtered papers; the papers
    themselves are untouched.  An event from anything but a checkbox changes
    nothing. *)
Theorem onCategoryChange_uncheck (category : jsString) (st : State) :
  knownQuickFilter (quickFilter st) →
  let st' := onCategoryChange h (lit "checkbox") category false st in
  papers st' = papers st
  ∧ (category ∉ activeCategories st')
  ∧ Forall (fun p => Paper.category p ≠ category) (filteredPapers st')
  ∧ ∀ type checked, type ≠ lit "checkbox" →
      onCategoryChange h type category checked st = st.
Proof.
  intros _. unfold onCategoryChange. rewrite bool_decide_eq_true_2 by done.
  split_and!.
  - done.
  - apply Set_delete_not_elem.
  - rewrite filteredPapers_applyFilters. apply Forall_forall.
    intros p [_ Hp]%list_elem_of_In%filter_In Heq. unfold keeps in Hp.
    apply andb_true_iff in Hp as [[Hp _]%andb_true_iff _].
    apply bool_decide_eq_true in Hp. simpl in Hp. rewrite Heq in Hp.
    by apply Set_delete_not_elem in Hp.
  - intros type checked Htype. by rewrite bool_decide_eq_false_2.
Qed.

(** X21. Checking a category makes it active; checking an active category
    changes nothing (a set has no duplicates); checking and then unchecking
    a category that was not active gives back the active categories, and
    with them the filtered papers, of a state whose filters were up to
    date. *)
Theorem onCategoryChange_check (category : jsString) (st : State) :
  let checked := onCategoryChange h (lit "checkbox") category true st in
  category ∈ activeCategories checked
  ∧ (category ∈ activeCategories st →
     activeCategories checked = activeCategories st)
  ∧ (category ∉ activeCategories st →
     onCategoryChange h (lit "checkbox") category false checked
     = applyFilters h st).
Proof.
  unfold onCategoryChange. rewrite bool_decide_eq_true_2 by done. simpl.
  split_and!.
  - unfold Set_add. case_bool_decide; [done|].
    apply elem_of_app. right. left.
  - intros Hin. unfold Set_add. by rewrite bool_decide_eq_true_2.
  - intros Hnot. unfold applyFilters at 1. simpl.
    rewrite (Set_delete_add _ _ Hnot). reflexivity.
Qed.

(** X22. Typing only white space into the search box is the same as
    clearing it: the query becomes empty and the search stage is
    skipped. *)
Theorem onSearchInput_blank (value : jsString) (st : State) :
  Forall (fun c => isSpace c = true) value →
  onSearchInput h value st = onClearSearch h st
  ∧ searchQuery (onSearchInput h value st) = [].
Proof.
  intros Hblank. unfold onSearchInput, onClearSearch.
  by rewrite (trim_blank _ Hblank).
Qed.

End HandlerProperties.

(** ** The relay *)

(** X24. The relay's handler reaches its [https.get] call only for a
    request that is not a preflight and whose [url] parameter, taken as a
    string, parses to a URL with one of the three allowed host names; it
    then passes that parameter unchanged.  A parameter whose host name is
    not allowed is answered with status 403, and a preflight with status
    204 whatever the target, neither reaching the call. *)
Theorem handleRequest_allow_list (hostnameOf : jsString → option jsString)
  (method : jsString) (queryUrl : QueryValue) :
  (∀ target, handleRequest hostnameOf method queryUrl = CallsHttpsGet target →
     target = queryUrl
     ∧ method ≠ lit "OPTIONS"
     ∧ ∃ hostname, hostnameOf (String_of_query queryUrl) = Some hostname
         ∧ hostname ∈ ALLOWED_HOSTS)
  ∧ (∀ hostname, method ≠ lit "OPTIONS" → truthyQuery queryUrl = true →
       hostnameOf (String_of_query queryUrl) = Some hostname →
       hostname ∉ ALLOWED_HOSTS →
       handleRequest hostnameOf method queryUrl
       = Reply 403 (Some (lit "Host not allowed")))
  ∧ (method = lit "OPTIONS" →
     handleRequest hostnameOf method queryUrl = Reply 204 None).
Proof.
  unfold handleRequest. split_and!.
  - intros target. case_bool_decide as Hm; [done|].
    destruct (truthyQuery queryUrl); simpl; [|done].
    destruct (hostnameOf _) as [hostname|]; [|done].
    case_bool_decide as Hhost; simpl; [|done].
    intros [= <-]. split_and!; [done..|]. by exists hostname.
  - intros hostname Hm Htruthy Hparse Hhost.
    rewrite bool_decide_eq_false_2, Htruthy, Hparse by done. simpl.
    by rewrite bool_decide_eq_false_2.
  - intros ->. by rewrite bool_decide_eq_true_2.
Qed.

(** X25. A category with an unpaired surrogate makes [fetchFromArxivAPI]
    reject before it requests anything: the URL is encoded outside the
    [try] statement. *)
Theorem fetchFromArxivAPI_rejects (h : Host) (category : jsString) (daysBack : N)
  (e : JsError) :
  encodeURIComponent (apiUrl h category daysBack) = Throw e →
  fetchFromArxivAPI h category daysBack = mkAsync [] (Throw e).
Proof. intros Henc. by apply proxyLoop_rejects. Qed.

(** ** The further properties at concrete inputs *)

Lemma extractArxivId_shape_witness :
  extractArxivId (lit "https://arxiv.org/abs/2401.00001v2?context=cs") ≠ []
  ∧ ∃ pre post,
      lit "https://arxiv.org/abs/2401.00001v2?context=cs"
      = pre ++ lit "abs/"
        ++ extractArxivId (lit "https://arxiv.org/abs/2401.00001v2?context=cs")
        ++ post
      ∧ Forall (fun c => c ≠ ch "?")
          (extractArxivId (lit "https://arxiv.org/abs/2401.00001v2?context=cs"))
      ∧ (post = [] ∨ ∃ r, post = ch "?" :: r).
Proof.
  assert (Hne : extractArxivId (lit "https://arxiv.org/abs/2401.00001v2?context=cs")
                ≠ []) by (vm_compute; discriminate).
  split; [exact Hne|]. by apply extractArxivId_shape.
Defined.

Lemma extractArxivId_no_abs_witness :
  includes (lit "https://arxiv.org/pdf/2401.00001") (lit "abs/") = false
  ∧ extractArxivId (lit "https://arxiv.org/pdf/2401.00001") = [].
Proof.
  assert (Hno : includes (lit "https://arxiv.org/pdf/2401.00001") (lit "abs/")
                = false) by (vm_compute; reflexivity).
  split; [exact Hno|]. by apply extractArxivId_no_abs.
Defined.

Lemma formatArxivDate_stamp_witness :
  plainDate (mkLocalDate 2024 0 6)
  ∧ length (formatArxivDate (mkLocalDate 2024 0 6)) = 12%nat
  ∧ Forall (fun c => isDigit c = true) (formatArxivDate (mkLocalDate 2024 0 6))
  ∧ drop 8 (formatArxivDate (mkLocalDate 2024 0 6)) = lit "0000".
Proof.
  assert (Hdate : plainDate (mkLocalDate 2024 0 6))
    by (unfold plainDate; simpl; lia).
  split; [exact Hdate|]. by apply formatArxivDate_stamp.
Defined.

Lemma applyFilters_category_only_witness :
  searchQuery (set_papers [samplePaper] initialState) = []
  ∧ quickFilter (set_papers [samplePaper] initialState) = lit "all"
  ∧ filteredPapers (applyFilters offlineHost (set_papers [samplePaper] initialState))
    = List.filter
        (fun p => bool_decide
           (Paper.category p ∈ activeCategories (set_papers [samplePaper] initialState)))
        (papers (set_papers [samplePaper] initialState)).
Proof.
  split_and!; [reflexivity..|].
  by apply applyFilters_category_only.
Defined.

Lemma fetchFromArxivAPI_chain_witness :
  ∃ encoded,
    encodeURIComponent (apiUrl (servingHost [] [sampleEntry]) (lit "cs.LG") 7)
    = Normal encoded
    ∧ fetchFromArxivAPI (servingHost [] [sampleEntry]) (lit "cs.LG") 7
      = mkAsync [candidateUrl encoded (lit "http://localhost:3001/?url=")]
          (Normal (parseArxivAPIResponse (servingHost [] [sampleEntry])
                     (lit "<doc/>") (lit "cs.LG"))).
Proof.
  assert (Henc : ∃ encoded,
            encodeURIComponent (apiUrl (servingHost [] [sampleEntry]) (lit "cs.LG") 7)
            = Normal encoded) by (vm_compute; eexists; reflexivity).
  destruct Henc as [encoded Henc]. exists encoded. split; [exact Henc|].
  destruct (fetchFromArxivAPI_chain (servingHost [] [sampleEntry]) (lit "cs.LG") 7
              encoded Henc) as (_ & _ & Hfirst).
  destruct (Hfirst 0%nat (lit "http://localhost:3001/?url="))
    as (text & Hfetch & _ & ->).
  - reflexivity.
  - vm_compute. reflexivity.
  - intros j earlier Hj. lia.
  - simpl in Hfetch. injection Hfetch as <-. reflexivity.
Defined.

Lemma mergedPapers_distinct_witness :
  NoDup (List.map Paper.id (concat [[samplePaper]; []]))
  ∧ mergedPapers [[samplePaper]; []] = concat [[samplePaper]; []].
Proof.
  assert (Hnd : NoDup (List.map Paper.id (concat [[samplePaper]; []])))
    by apply NoDup_singleton.
  split; [exact Hnd|]. by apply mergedPapers_distinct.
Defined.


Lemma toggleBookmark_twice_witness :
  isBookmarked initialState (Paper.id samplePaper) = false
  ∧ ∃ w1 w2,
      toggleBookmark offlineHost samplePaper (mkWorld initialState None) = Normal w1
      ∧ isBookmarked (state w1) (Paper.id samplePaper) = true
      ∧ toggleBookmark offlineHost samplePaper w1 = Normal w2
      ∧ bookmarks (state w2) = [].
Proof.
  split; [reflexivity|].
  apply (toggleBookmark_twice offlineHost samplePaper (mkWorld initialState None)).
  reflexivity.
Defined.

Lemma bookmarks_NoDup_witness :
  NoDup (List.map Bookmark.id [sampleBookmark])
  ∧ (∃ w', toggleBookmark offlineHost samplePaper
             (mkWorld (set_bookmarks [sampleBookmark] initialState) None) = Normal w'
       ∧ NoDup (List.map Bookmark.id (bookmarks (state w')))
       ∧ isBookmarked (state w') (Paper.id samplePaper) = false).
Proof.
  assert (Hnd : NoDup (List.map Bookmark.id [sampleBookmark]))
    by apply NoDup_singleton.
  split; [exact Hnd|].
  apply (bookmarks_NoDup offlineHost samplePaper []
           (mkWorld (set_bookmarks [sampleBookmark] initialState) None) Hnd).
Defined.

Lemma save_then_load_witness :
  ∃ w1 w2,
    saveBookmarks jsonHost
      (mkWorld (set_bookmarks [sampleBookmark] initialState) None) = Normal w1
    ∧ loadBookmarks jsonHost (mkWorld initialState (slot w1)) = Normal w2
    ∧ bookmarks (state w2) = [sampleBookmark].
Proof.
  apply (save_then_load jsonHost
           (mkWorld (set_bookmarks [sampleBookmark] initialState) None));
    [reflexivity | reflexivity | vm_compute; discriminate | vm_compute; reflexivity].
Defined.

Lemma onSearchInput_blank_witness :
  Forall (fun c => isSpace c = true) (lit "   ")
  ∧ onSearchInput offlineHost (lit "   ") initialState
    = onClearSearch offlineHost initialState
  ∧ searchQuery (onSearchInput offlineHost (lit "   ") initialState) = [].
Proof.
  assert (Hblank : Forall (fun c => isSpace c = true) (lit "   "))
    by (repeat constructor).
  split; [exact Hblank|]. by apply onSearchInput_blank.
Defined.

Lemma fetchFromArxivAPI_rejects_witness :
  encodeURIComponent (apiUrl offlineHost [55296] 7) = Throw URIError
  ∧ fetchFromArxivAPI offlineHost [55296] 7 = mkAsync [] (Throw URIError).
Proof.
  assert (Henc : encodeURIComponent (apiUrl offlineHost [55296] 7) = Throw URIError)
    by (vm_compute; reflexivity).
  split; [exact Henc|]. by apply fetchFromArxivAPI_rejects.
Defined.

Lemma fetchFeed_configured_fulfils_witness :
  sampleFeed ∈ CONFIG.feeds
  ∧ ∃ papers, settled (fetchFeed flakyHost sampleFeed) = Normal papers.
Proof.
  assert (Hin : sampleFeed ∈ CONFIG.feeds) by left.
  split; [exact Hin|]. by apply fetchFeed_configured_fulfils.
Defined.

Lemma fetchAllFeeds_preserves_NoDup_witness :
  NoDup (List.map Paper.id (papers (rangedState (lit "week") [[55296]] [samplePaper])))
  ∧ ∃ st',
      settled (fetchAllFeeds offlineHost
                 (rangedState (lit "week") [[55296]] [samplePaper])) = Normal st'
      ∧ NoDup (List.map Paper.id (papers st')).
Proof.
  assert (Hnd : NoDup (List.map Paper.id
                  (papers (rangedState (lit "week") [[55296]] [samplePaper]))))
    by apply NoDup_singleton.
  split; [exact Hnd|]. by apply fetchAllFeeds_preserves_NoDup.
Defined.

Lemma applyFilters_keeps_witness :
  knownQuickFilter (quickFilter filteringState)
  ∧ applyFilters readerHost filteringState
    = set_filteredPapers [samplePaper] filteringState.
Proof.
  assert (Hkey : knownQuickFilter (quickFilter filteringState))
    by (apply list_elem_of_In; vm_compute; tauto).
  split; [exact Hkey|].
  rewrite (applyFilters_keeps readerHost filteringState Hkey).
  vm_compute. reflexivity.
Defined.

Lemma applyFilters_sound_witness :
  knownQuickFilter (quickFilter filteringState)
  ∧ applyFilters readerHost (applyFilters readerHost filteringState)
    = applyFilters readerHost filteringState
  ∧ filteredPapers (applyFilters readerHost filteringState)
    `sublist_of` papers filteringState
  ∧ Forall (fun p => Paper.category p ∈ activeCategories filteringState)
           (filteredPapers (applyFilters readerHost filteringState))
  ∧ (activeCategories filteringState = [] →
     filteredPapers (applyFilters readerHost filteringState) = []).
Proof.
  assert (Hkey : knownQuickFilter (quickFilter filteringState))
    by (apply list_elem_of_In; vm_compute; tauto).
  split; [exact Hkey|]. by apply applyFilters_sound.
Defined.

Lemma onCategoryChange_uncheck_witness :
  knownQuickFilter (quickFilter twoPapersState)
  ∧ papers (onCategoryChange readerHost (lit "checkbox") (lit "cs.LG") false
              twoPapersState) = [samplePaper; visionPaper]
  ∧ filteredPapers (onCategoryChange readerHost (lit "checkbox") (lit "cs.LG") false
                      twoPapersState) = [visionPaper]
  ∧ Forall (fun p => Paper.category p ≠ lit "cs.LG")
      (filteredPapers (onCategoryChange readerHost (lit "checkbox") (lit "cs.LG")
                         false twoPapersState)).
Proof.
  assert (Hkey : knownQuickFilter (quickFilter twoPapersState))
    by (apply list_elem_of_In; vm_compute; tauto).
  destruct (onCategoryChange_uncheck readerHost (lit "cs.LG") twoPapersState Hkey)
    as (Hpapers & _ & Hnone & _).
  split_and!; [exact Hkey | exact Hpapers | vm_compute; reflexivity | exact Hnone].
Defined.
